(** * Ticket triage: confidence scoring, resolution policy, lifecycle, search

    A shallow embedding of [app.py] (the automated ticketing application) and
    the properties its specification states about it.

    Modelling conventions.
    - A Python [str] is a [string]; the model is exact for ASCII text:
      [str.lower], [str.upper], [str.strip] and the regular expression class
      [\w] are given on code points 0..127 as Python defines them there, and
      code points above 127 are treated as caseless symbols that are neither
      word characters nor white space.
    - A Python [float] is a binary64 primitive float; the arithmetic of
      [compute_confidence] is the kernel's IEEE 754 arithmetic, the one
      CPython uses.  The integers 40, 70, 95 and 100 that the source mixes
      with floats are exactly representable, so they are written as floats.
    - A JSON object handled as a dictionary ([extracted], [ai_analysis]) is a
      [gmap string jval]; a ticket, whose keys the program fixes, is a record.
    - The two JSON files, the language-model service and the messages shown
      to the user are the components of an explicit [world]; code that
      touches them is written in a state-and-exception monad.
    - The lifecycle state the specification calls [need_review] is the
      status string ["need review"] of the source.
    - Of [parse_search_query] the decoding of the reply is embedded, not
      the call of the model; the session state of the form and the widgets
      are not embedded. *)

From Stdlib Require Import ZArith QArith Qround Ascii String List Bool Lia.
From Stdlib Require Import PrimFloat FloatOps SpecFloat.
From Stdlib Require Import DecimalString DecimalPos DecimalN.
From stdpp Require Import base option list strings gmap.

Set Warnings "-inexact-float".

(** ** Python strings *)

Module PyStr.

Definition code (c : ascii) : N := N_of_ascii c.

Definition in_range (lo hi n : N) : bool := ((lo <=? n) && (n <=? hi))%N.

(** [c.lower()] on one ASCII character. *)
Definition lower_char (c : ascii) : ascii :=
  if in_range 65 90 (code c) then ascii_of_N (code c + 32) else c.

(** [c.upper()] on one ASCII character. *)
Definition upper_char (c : ascii) : ascii :=
  if in_range 97 122 (code c) then ascii_of_N (code c - 32) else c.

(** [c.isspace()]: tab, line feed, vertical tab, form feed, carriage return,
    the four separators 28..31 and the space. *)
Definition is_space (c : ascii) : bool :=
  in_range 9 13 (code c) || in_range 28 32 (code c).

(** The class [\w] of the [re] module: letters, digits and underscore. *)
Definition is_word (c : ascii) : bool :=
  in_range 48 57 (code c) || in_range 65 90 (code c)
  || in_range 97 122 (code c) || (code c =? 95)%N.

Fixpoint map_chars (f : ascii -> ascii) (s : string) : string :=
  match s with
  | EmptyString => EmptyString
  | String c r => String (f c) (map_chars f r)
  end.

Definition lower : string -> string := map_chars lower_char.
Definition upper : string -> string := map_chars upper_char.

Fixpoint lstrip (s : string) : string :=
  match s with
  | EmptyString => EmptyString
  | String c r => if is_space c then lstrip r else s
  end.

Fixpoint rstrip (s : string) : string :=
  match s with
  | EmptyString => EmptyString
  | String c r =>
      match rstrip r with
      | EmptyString => if is_space c then EmptyString else String c EmptyString
      | r' => String c r'
      end
  end.

(** [s.strip()] *)
Definition strip (s : string) : string := rstrip (lstrip s).

(** Truth value of a string: [not s] holds of the empty string only. *)
Definition truthy (s : string) : bool :=
  match s with EmptyString => false | String _ _ => true end.

Definition head (s : string) : option ascii :=
  match s with EmptyString => None | String c _ => Some c end.

Fixpoint last_char (prev : option ascii) (s : string) : option ascii :=
  match s with
  | EmptyString => prev
  | String c r => last_char (Some c) r
  end.

End PyStr.

(** ** The pattern [\b<literal>\b]

    [re.escape] turns every character of its argument into a literal, so the
    pattern built by [field_score] is: a word boundary, the characters of the
    field value one after the other, a word boundary.  [re.search] tries the
    pattern at every position of the subject from left to right. *)

Module Re.
Import PyStr.

Definition word_at (o : option ascii) : bool :=
  match o with Some c => is_word c | None => false end.

(** [\b] between two neighbouring positions; outside the subject there is no
    word character. *)
Definition boundary (prev next : option ascii) : bool :=
  xorb (word_at prev) (word_at next).

(** The literal [pat] followed by [\b], tried on [s]; [prev] is the character
    just before the current position. *)
Fixpoint match_literal_b (prev : option ascii) (pat s : string) : bool :=
  match pat with
  | EmptyString => boundary prev (head s)
  | String p pat' =>
      match s with
      | EmptyString => false
      | String c s' =>
          if Ascii.eqb p c then match_literal_b (Some c) pat' s' else false
      end
  end.

(** The whole pattern tried at the current position. *)
Definition match_here (prev : option ascii) (pat s : string) : bool :=
  boundary prev (head s) && match_literal_b prev pat s.

Fixpoint search_from (prev : option ascii) (pat s : string) : bool :=
  match_here prev pat s
  || match s with
     | EmptyString => false
     | String c s' => search_from (Some c) pat s'
     end.

(** Truth value of [re.search(r"\b" + re.escape(lit) + r"\b", subject)]. *)
Definition search_word (lit subject : string) : bool :=
  search_from None lit subject.

End Re.

(** ** Python numbers *)

Module PyNum.

Local Open Scope Z_scope.

(** Nearest integer to [m * 2^e], a tie going to the even neighbour. *)
Definition round_half_even (m : positive) (e : Z) : Z :=
  if 0 <=? e then Z.pos m * 2 ^ e
  else
    let d := 2 ^ (- e) in
    let q := Z.pos m / d in
    let r := Z.pos m mod d in
    match 2 * r ?= d with
    | Lt => q
    | Gt => q + 1
    | Eq => if Z.even q then q else q + 1
    end.

Definition is_finite (f : float) : bool :=
  match Prim2SF f with
  | S754_zero _ | S754_finite _ _ _ => true
  | _ => false
  end.

(** [round(f)] with one argument.  Python raises on an infinity or a NaN;
    the model returns 0 there, and [compute_confidence] never reaches it
    (lemma [normalize_finite] below). *)
Definition py_round (f : float) : Z :=
  match Prim2SF f with
  | S754_finite s m e =>
      if s then - round_half_even m e else round_half_even m e
  | _ => 0
  end.

(** [min(a, b)] of two numbers: the first argument unless the second is
    strictly smaller. *)
Definition py_min (a b : float) : float := if PrimFloat.ltb b a then b else a.

End PyNum.

(** ** Field scorer and confidence calculator *)

Import PyStr PyNum.

Local Open Scope string_scope.

(** [field_score(field_value, description)] *)
Definition field_score (field_value description : string) : float :=
  if negb (truthy field_value) || String.eqb (lower field_value) "unknown"
  then 0.3%float
  else
    let desc := lower description in
    let fv := lower field_value in
    if Re.search_word fv desc then 1.0%float else 0.7%float.

(** The condition of the redundancy cap:
    [issue_type and affected_system and
     issue_type.lower() == affected_system.lower()]. *)
Definition redundant (issue_type affected_system : string) : bool :=
  truthy issue_type && truthy affected_system
  && String.eqb (lower issue_type) (lower affected_system).

(** The weighted sum of line 55, with the weights of lines 47 to 49. *)
Definition weighted (s_issue s_sev s_sys : float) : float :=
  let w_issue := 0.33%float in
  let w_sev := 0.33%float in
  let w_sys := 0.33%float in
  ((s_issue * w_issue + s_sev * w_sev + s_sys * w_sys) * 100)%float.

Definition cap (c : bool) (conf : float) : float :=
  if c then py_min conf 70%float else conf.

(** The two tests under the comment [# Normalize]. *)
Definition normalize (conf : float) : float :=
  let conf := if PrimFloat.ltb conf 40%float then 40%float else conf in
  let conf := if PrimFloat.ltb 95%float conf then 95%float else conf in
  conf.

(** [compute_confidence(issue_type, severity, affected_system, description)] *)
Definition compute_confidence
    (issue_type severity affected_system description : string) : Z :=
  let s_issue := field_score issue_type description in
  let s_sev := field_score severity description in
  let s_sys := field_score affected_system description in
  let conf := weighted s_issue s_sev s_sys in
  let conf := cap (redundant issue_type affected_system) conf in
  let conf := normalize conf in
  py_round conf.

(** ** Data model *)

(** A JSON value stored in an analysis dictionary: the strings the extraction
    service returns, and the integer confidence the program adds. *)
Inductive jval : Type :=
  | JStr (s : string)
  | JInt (n : Z).

Global Instance jval_eq_dec : EqDecision jval.
Proof. solve_decision. Defined.

(** A ticket: the keys [ticket_no], [description] and [status] are written by
    the ticket-creation handler; [ai_analysis] and [human_resolution] are
    absent until automatic processing, respectively manual closure, adds
    them. *)
Record ticket : Type := Ticket {
  ticket_no : string;
  description : string;
  status : string;
  ai_analysis : option (gmap string jval);
  human_resolution : option string
}.

(** [t["status"] = s], [t["ai_analysis"] = a], [t["human_resolution"] = r] *)
Definition set_status (s : string) (t : ticket) : ticket :=
  Ticket (ticket_no t) (description t) s (ai_analysis t) (human_resolution t).
Definition set_ai_analysis (a : gmap string jval) (t : ticket) : ticket :=
  Ticket (ticket_no t) (description t) (status t) (Some a) (human_resolution t).
Definition set_human_resolution (r : string) (t : ticket) : ticket :=
  Ticket (ticket_no t) (description t) (status t) (ai_analysis t) (Some r).

(** An entry of [memory.json]. *)
Record memory_entry : Type := MemoryEntry {
  m_ticket_no : string;
  m_resolution : string;
  m_approved_by_human : bool
}.

(** The prompts of [generate_proposed_fix] and [analyze_ticket], each
    determined by the description it embeds. *)
Inductive request : Type :=
  | FixPrompt (description : string)
  | ExtractionPrompt (description : string).

Inductive message : Type :=
  | Error (text : string)
  | Success (text : string).

Inductive event : Type :=
  | Chat (r : request)
  | SaveTickets
  | SaveMemory
  | Display (m : message).

Inductive outcome (A : Type) : Type :=
  | Ok (a : A)
  | Raised.
Arguments Ok {A} a.
Arguments Raised {A}.

(** ** Search filter *)

(** The loop of [filter_tickets]; [results] is the list being appended to. *)
Fixpoint filter_loop (status_q severity_q : string) (tickets results : list ticket)
    : list ticket :=
  match tickets with
  | [] => results
  | t :: rest =>
      let ai := default ∅ (ai_analysis t) in
      if negb (String.eqb status_q "none") && negb (String.eqb (status t) status_q)
      then filter_loop status_q severity_q rest results
      else if negb (String.eqb severity_q "none")
              && negb (bool_decide (ai !! "severity" = Some (JStr severity_q)))
      then filter_loop status_q severity_q rest results
      else filter_loop status_q severity_q rest (results ++ [t])
  end.

(** [filter_tickets(tickets, status, severity)] *)
Definition filter_tickets (tickets : list ticket) (status_q severity_q : string)
    : list ticket :=
  filter_loop status_q severity_q tickets [].

(** ** String helpers of [analyze_ticket] *)

Module Slice.
Local Open Scope Z_scope.

(** [s.find(c)] from index [i] on: the first index, or -1. *)
Fixpoint find_from (c : ascii) (s : string) (i : Z) : Z :=
  match s with
  | EmptyString => -1
  | String a r => if Ascii.eqb a c then i else find_from c r (i + 1)
  end.

(** [s.rfind(c)]: the last index, or -1. *)
Fixpoint rfind_from (c : ascii) (s : string) (i : Z) : Z :=
  match s with
  | EmptyString => -1
  | String a r =>
      let j := rfind_from c r (i + 1) in
      if 0 <=? j then j else if Ascii.eqb a c then i else -1
  end.

Definition find (c : ascii) (s : string) : Z := find_from c s 0.
Definition rfind (c : ascii) (s : string) : Z := rfind_from c s 0.

(** A slice bound as Python normalises it: a negative bound counts from the
    end, and the result is clipped to [0, len]. *)
Definition clip (len i : Z) : Z :=
  if i <? 0 then Z.max (i + len) 0 else Z.min i len.

(** [s[start:stop]] *)
Definition slice (s : string) (start stop : Z) : string :=
  let len := Z.of_nat (String.length s) in
  let a := clip len start in
  let b := clip len stop in
  if a <? b then String.substring (Z.to_nat a) (Z.to_nat (b - a)) s
  else EmptyString.

End Slice.

(** ** The world: files, language model, user interface *)

Section App.

(** The state of the language-model service, and [ollama.chat]: the content
    of the reply, or [None] when the call raises.  Nothing is assumed about
    the replies; two calls with the same prompt may differ. *)
Context {llm : Type}.
Variable chat : request -> llm -> option string * llm.

(** [json.loads] on the text cut out of a reply: the decoded object, or
    [None] when decoding raises.  The object is string-valued, as the JSON
    format requested in the prompt. *)
Variable json_loads : string -> option (gmap string string).

Record world : Type := World {
  tickets_file : option (list ticket);      (* tickets.json, if it exists *)
  memory_file : option (list memory_entry); (* memory.json, if it exists *)
  model : llm;
  log : list event                          (* what happened, oldest first *)
}.

Definition M (A : Type) : Type := world -> outcome A * world.

#[global] Instance M_ret : MRet M := λ A a w, (Ok a, w).
#[global] Instance M_bind : MBind M := λ A B f m w,
  match m w with
  | (Ok a, w1) => f a w1
  | (Raised, w1) => (Raised, w1)
  end.

Definition raise {A} : M A := λ w, (Raised, w).

Definition record (e : event) : M unit := λ w,
  (Ok tt, World (tickets_file w) (memory_file w) (model w) (log w ++ [e])).

(** [load_tickets()] *)
Definition load_tickets : M (list ticket) := λ w,
  (Ok (default [] (tickets_file w)), w).

(** [save_tickets(tickets)] *)
Definition save_tickets (tickets : list ticket) : M unit := λ w,
  (Ok tt, World (Some tickets) (memory_file w) (model w) (log w ++ [SaveTickets])).

(** [load_memory()] *)
Definition load_memory : M (list memory_entry) := λ w,
  (Ok (default [] (memory_file w)), w).

(** [save_memory(memory)] *)
Definition save_memory (memory : list memory_entry) : M unit := λ w,
  (Ok tt, World (tickets_file w) (Some memory) (model w) (log w ++ [SaveMemory])).

(** [ollama.chat(model='gemma3:1b', messages=[...])["message"]["content"]] *)
Definition ollama_chat (r : request) : M string := λ w,
  let '(reply, m) := chat r (model w) in
  let w1 := World (tickets_file w) (memory_file w) m (log w ++ [Chat r]) in
  match reply with
  | Some content => (Ok content, w1)
  | None => (Raised, w1)
  end.

Definition st_error (text : string) : M unit := record (Display (Error text)).
Definition st_success (text : string) : M unit := record (Display (Success text)).

(** ** Fix generator and analyzer *)

(** [generate_proposed_fix(description)] *)
Definition generate_proposed_fix (description : string) : M string :=
  content ← ollama_chat (FixPrompt description);
  mret (strip content).

(** The dictionary of the [except] branch of [analyze_ticket]. *)
Definition unknown_extraction : gmap string string :=
  <["affected_system" := "unknown"]>
    (<["severity" := "unknown"]> (<["issue_type" := "unknown"]> ∅)).

(** The [try] block of [analyze_ticket]: cut the reply from its first [{] to
    its last [}] and decode it; the [except] branch replaces any failure. *)
Definition parse_extraction (content : string) : gmap string string :=
  let json_start := Slice.find "{"%char content in
  let json_end := (Slice.rfind "}"%char content + 1)%Z in
  match json_loads (Slice.slice content json_start json_end) with
  | Some extracted => extracted
  | None => unknown_extraction
  end.

(** [analyze_ticket(description)] *)
Definition analyze_ticket (description : string) : M (gmap string jval) :=
  content ← ollama_chat (ExtractionPrompt description);
  let extracted := parse_extraction content in
  let conf :=
    compute_confidence
      (default "" (extracted !! "issue_type"))
      (default "" (extracted !! "severity"))
      (default "" (extracted !! "affected_system"))
      description in
  let extracted := <["confidence" := JInt conf]> (JStr <$> extracted) in
  if (85 <=? conf)%Z then
    fix_ ← generate_proposed_fix description;
    mret (<["propose_fix" := JStr fix_]> extracted)
  else
    mret (<["propose_fix" := JStr "none"]> extracted).

(** ** Automatic processing *)

(** [analysis["confidence"] >= 85]; a missing key or a string there
    raises. *)
Definition confidence_ge_85 (analysis : gmap string jval) : M bool :=
  match analysis !! "confidence" with
  | Some (JInt c) => mret (85 <=? c)%Z
  | _ => raise
  end.

(** The body of the loop of [auto_process_open_tickets] for an open
    ticket. *)
Definition process_open_ticket (t : ticket) : M ticket :=
  analysis ← analyze_ticket (description t);
  let t := set_ai_analysis analysis t in
  high ← confidence_ge_85 analysis;
  if high : bool then mret (set_status "closed" t)
  else mret (set_status "need review" t).

(** The loop of [auto_process_open_tickets]: the tickets as the loop leaves
    them, and the flag [changed]. *)
Fixpoint process_loop (tickets : list ticket) (changed : bool)
    : M (list ticket * bool) :=
  match tickets with
  | [] => mret ([], changed)
  | t :: rest =>
      if String.eqb (status t) "open" then
        t' ← process_open_ticket t;
        '(rest', changed') ← process_loop rest true;
        mret (t' :: rest', changed')
      else
        '(rest', changed') ← process_loop rest changed;
        mret (t :: rest', changed')
  end.

(** [auto_process_open_tickets()] *)
Definition auto_process_open_tickets : M unit :=
  tickets ← load_tickets;
  '(tickets, changed) ← process_loop tickets false;
  if changed : bool then save_tickets tickets else mret tt.

(** ** Manual closure *)

(** The test that locates the ticket:
    [t["ticket_no"].strip().upper() == ticket_to_close.strip().upper()]. *)
Definition same_number (stored entered : string) : bool :=
  String.eqb (upper (strip stored)) (upper (strip entered)).

Definition close_ticket (resolution_notes : string) (t : ticket) : ticket :=
  set_human_resolution resolution_notes (set_status "closed" t).

(** The loop of the handler of the button "Close Ticket Manually"; [seen] are
    the tickets already passed over, and the result is the flag [found]. *)
Fixpoint close_loop (ticket_to_close resolution_notes : string)
    (seen rest : list ticket) : M bool :=
  match rest with
  | [] => mret false
  | t :: rest' =>
      if same_number (ticket_no t) ticket_to_close then
        if negb (String.eqb (status t) "need review") then
          _ ← st_error "This ticket is not in 'need review' state.";
          mret false
        else
          _ ← save_tickets (seen ++ close_ticket resolution_notes t :: rest');
          memory ← load_memory;
          _ ← save_memory
                (memory ++ [MemoryEntry ticket_to_close resolution_notes true]);
          _ ← st_success
                ("Ticket " ++ ticket_to_close ++ " has been manually closed.");
          mret true
      else close_loop ticket_to_close resolution_notes (seen ++ [t]) rest'
  end.

(** The handler of the button "Close Ticket Manually".  The assignments to
    [st.session_state] after the success message belong to the form and are
    not part of the world. *)
Definition close_ticket_manually (ticket_to_close resolution_notes : string)
    : M unit :=
  if negb (truthy (strip ticket_to_close)) then
    st_error "Please enter a ticket number."
  else if negb (truthy (strip resolution_notes)) then
    st_error "Please enter resolution notes."
  else
    tickets ← load_tickets;
    found ← close_loop ticket_to_close resolution_notes [] tickets;
    if negb found then st_error "Ticket not found." else mret tt.

End App.

(** ** Reference definitions, after the specification *)

(** The field value occurs in the text between two word boundaries: the text
    splits as [pre ++ fv ++ post] with a boundary before and after [fv]. *)
Definition occurs_word_bounded (fv text : string) : Prop :=
  ∃ pre post : string,
    text = pre ++ fv ++ post
    ∧ Re.boundary (last_char None pre) (head (fv ++ post)) = true
    ∧ Re.boundary (last_char None (pre ++ fv)) (head post) = true.

(** The extractor found nothing: the value is empty or is [unknown] in any
    letter case. *)
Definition no_value (fv : string) : Prop := fv = "" ∨ lower fv = "unknown".

(** The three grades of support of the field scorer. *)
Inductive support : Type := Unsupported | Verbatim | Inferred.

Definition grade (fv text : string) : support :=
  if negb (truthy fv) || String.eqb (lower fv) "unknown" then Unsupported
  else if Re.search_word (lower fv) (lower text) then Verbatim
  else Inferred.

(** The grades as the decimal fractions 0.3, 1.0 and 0.7. *)
Definition decimal (g : support) : Q :=
  match g with
  | Unsupported => 3 # 10
  | Verbatim => 1
  | Inferred => 7 # 10
  end.

(** Nearest integer to a rational, a tie going up. *)
Definition nearest (q : Q) : Z := Qfloor (q + (1 # 2)).

Definition clamp_Q (lo hi q : Q) : Q :=
  (if Qle_bool q lo then lo else if Qle_bool hi q then hi else q)%Q.

(** The raw percentage in exact decimal arithmetic, with the weights 0.33 of
    the source. *)
Definition exact_raw
    (issue_type severity affected_system description : string) : Q :=
  let s_issue := decimal (grade issue_type description) in
  let s_sev := decimal (grade severity description) in
  let s_sys := decimal (grade affected_system description) in
  let w := 33 # 100 in
  ((s_issue * w + s_sev * w + s_sys * w) * 100)%Q.

(** The confidence in exact decimal arithmetic: raw percentage, redundancy
    cap at 70, clamp to [40, 95], nearest integer. *)
Definition exact_confidence
    (issue_type severity affected_system description : string) : Z :=
  let raw := exact_raw issue_type severity affected_system description in
  let raw :=
    (if redundant issue_type affected_system && Qle_bool 70 raw
     then 70 else raw)%Q in
  nearest (clamp_Q 40%Q 95%Q raw).

(** The confidence as the specification words it, with weights 1/3:
    [raw = (s_issue + s_sev + s_sys) / 3 * 100], then cap, clamp and
    rounding as in the source. *)
Definition reference_confidence
    (issue_type severity affected_system description : string) : Z :=
  let s_issue := field_score issue_type description in
  let s_sev := field_score severity description in
  let s_sys := field_score affected_system description in
  let raw := ((s_issue + s_sev + s_sys) / 3 * 100)%float in
  py_round (normalize (cap (redundant issue_type affected_system) raw)).

(** The severity read from a ticket's extraction result, if it has one. *)
Definition severity_of (t : ticket) : option jval :=
  ai_analysis t ≫= λ ai, ai !! "severity".

(** Every facet that is not [none] matches the ticket. *)
Definition facets_match (status_q severity_q : string) (t : ticket) : Prop :=
  (status_q = "none" ∨ status t = status_q)
  ∧ (severity_q = "none" ∨ severity_of t = Some (JStr severity_q)).

Global Instance facets_match_dec status_q severity_q t :
  Decision (facets_match status_q severity_q t).
Proof. unfold facets_match. apply _. Defined.

(** The tickets and the resolution memory as [load_tickets] and
    [load_memory] read them. *)
Definition stored {llm} (w : @world llm) : list ticket :=
  default [] (tickets_file w).
Definition remembered {llm} (w : @world llm) : list memory_entry :=
  default [] (memory_file w).

(** A world that differs from [w] in its log only. *)
Definition with_log {llm} (w : @world llm) (l : list event) : @world llm :=
  World (tickets_file w) (memory_file w) (model w) l.

(** A string field of a stored analysis, as [analysis.get(k, "")]. *)
Definition str_field (a : gmap string jval) (k : string) : string :=
  match a !! k with Some (JStr s) => s | _ => "" end.

(** The confidence computed from the extraction kept in an analysis. *)
Definition stored_confidence (a : gmap string jval) (description : string) : Z :=
  compute_confidence (str_field a "issue_type") (str_field a "severity")
    (str_field a "affected_system") description.

(** The descriptions for which a fix, respectively an extraction, was
    requested from the model, in the order of the log. *)
Fixpoint fix_requests (l : list event) : list string :=
  match l with
  | [] => []
  | Chat (FixPrompt d) :: l' => d :: fix_requests l'
  | _ :: l' => fix_requests l'
  end.

Fixpoint scored (l : list event) : list string :=
  match l with
  | [] => []
  | Chat (ExtractionPrompt d) :: l' => d :: scored l'
  | _ :: l' => scored l'
  end.

Definition is_open (t : ticket) : Prop := status t = "open".

Definition any_open (ts : list ticket) : bool :=
  existsb (λ t, String.eqb (status t) "open") ts.

(** A string of white space only. *)
Fixpoint blank (s : string) : bool :=
  match s with
  | EmptyString => true
  | String c r => is_space c && blank r
  end.

(** The two strings are equal up to letter case once the white space around
    each is removed. *)
Definition differ_only_in_case_and_padding (a b : string) : Prop :=
  ∃ la ca ra lb cb rb : string,
    a = la ++ ca ++ ra ∧ b = lb ++ cb ++ rb
    ∧ blank la = true ∧ blank ra = true ∧ blank lb = true ∧ blank rb = true
    ∧ upper ca = upper cb.

(** No ticket of the list carries the entered number. *)
Definition none_matches (entered : string) (ts : list ticket) : Prop :=
  Forall (λ u, same_number (ticket_no u) entered = false) ts.

(** No ticket of the list has a number that differs from the entered one in
    letter case and surrounding white space only. *)
Definition no_variant_among (entered : string) (ts : list ticket) : Prop :=
  Forall (λ u, ¬ differ_only_in_case_and_padding (ticket_no u) entered) ts.

Definition not_in_review : string := "This ticket is not in 'need review' state.".
Definition not_found : string := "Ticket not found.".

(** The world after the manual closure of the ticket [t] found between [pre]
    and [post]: both files rewritten, one success message. *)
Definition closed_world {llm} (w : @world llm) (entered notes : string)
    (pre : list ticket) (t : ticket) (post : list ticket) : @world llm :=
  World (Some (pre ++ close_ticket notes t :: post)%list)
    (Some (remembered w ++ [MemoryEntry entered notes true])%list)
    (model w)
    (log w
     ++ [SaveTickets; SaveMemory;
         Display
           (Success ("Ticket " ++ entered ++ " has been manually closed."))])%list.

(** ** Sample data *)

Module Sample.

Definition login_report : string :=
  "Server crashes on login, critical issue with auth system".

(** A model that always answers the same, and a decoder that always finds
    the same extraction. *)
Definition chat (r : request) (m : unit) : option string * unit :=
  match r with
  | FixPrompt _ => (Some " Restart the auth service. ", m)
  | ExtractionPrompt _ => (Some "Here you go: {...}", m)
  end.

Definition json_loads (s : string) : option (gmap string string) :=
  Some (<["affected_system" := "auth system"]>
          (<["severity" := "critical"]> (<["issue_type" := "crash"]> ∅))).

Definition t1 : ticket := Ticket "TICKET-0001" "Printer is slow" "closed" None None.
Definition t2 : ticket := Ticket "TICKET-0002" "VPN drops" "need review" None None.
Definition t3 : ticket := Ticket "TICKET-0003" login_report "open" None None.

Definition w0 : @world unit := World (Some [t1; t2; t3]) None tt [].

(** The world after one automatic pass over [w0]. *)
Definition w1 : @world unit :=
  snd (auto_process_open_tickets chat json_loads w0).

End Sample.

(** ** Numbers in text: [str.split], [int], the format [04d] *)

Module PyText.

(** [s.split(sep)] for a separator of one character: the pieces between the
    occurrences of [sep], never an empty list. *)
Fixpoint split_on (sep : ascii) (s : string) : list string :=
  match s with
  | EmptyString => [EmptyString]
  | String c r =>
      if Ascii.eqb c sep then EmptyString :: split_on sep r
      else
        match split_on sep r with
        | piece :: pieces => String c piece :: pieces
        | [] => [String c EmptyString]
        end
  end.

Definition digit_value (c : ascii) : option Z :=
  if in_range 48 57 (code c) then Some (Z.of_N (code c) - 48)%Z else None.

(** The digits of a decimal integer literal, read from left to right: single
    underscores are allowed between digits; [after_digit] tells whether the
    character just read was a digit. *)
Fixpoint parse_digits (acc : Z) (after_digit : bool) (s : string) : option Z :=
  match s with
  | EmptyString => if after_digit then Some acc else None
  | String c r =>
      match digit_value c with
      | Some d => parse_digits (acc * 10 + d) true r
      | None =>
          if Ascii.eqb c "_" && after_digit then parse_digits acc false r
          else None
      end
  end.

(** The white space [int] skips around a number in ASCII text: tab, line
    feed, vertical tab, form feed, carriage return and space; the separators
    28..31, which [str.strip] removes, are not skipped. *)
Definition is_int_space (c : ascii) : bool :=
  in_range 9 13 (code c) || (code c =? 32)%N.

Fixpoint skip_left (s : string) : string :=
  match s with
  | EmptyString => EmptyString
  | String c r => if is_int_space c then skip_left r else s
  end.

Fixpoint skip_right (s : string) : string :=
  match s with
  | EmptyString => EmptyString
  | String c r =>
      match skip_right r with
      | EmptyString =>
          if is_int_space c then EmptyString else String c EmptyString
      | r' => String c r'
      end
  end.

(** [int(s)]: white space around, an optional sign, decimal digits; [None]
    is [ValueError].  Integers are unbounded; the limit the interpreter may
    put on the number of digits of a conversion is not modelled. *)
Definition py_int (s : string) : option Z :=
  match skip_right (skip_left s) with
  | String "+" r => parse_digits 0 false r
  | String "-" r => Z.opp <$> parse_digits 0 false r
  | body => parse_digits 0 false body
  end.

(** [str(n)] for a natural number. *)
Definition digits_of (n : N) : string :=
  NilEmpty.string_of_uint (N.to_uint n).

(** [k] zeros in front of a string. *)
Fixpoint zeros (k : nat) (s : string) : string :=
  match k with
  | O => s
  | S k' => String "0" (zeros k' s)
  end.

(** A string of digits filled with zeros on the left up to [width]
    characters, as the format [0<width>d] fills after the sign. *)
Definition zero_fill (width : nat) (s : string) : string :=
  zeros (width - String.length s) s.

(** [f"{z:04d}"]: at least four characters, zeros after the sign. *)
Definition format_04d (z : Z) : string :=
  if (z <? 0)%Z then "-" ++ zero_fill 3 (digits_of (Z.to_N (- z)))
  else zero_fill 4 (digits_of (Z.to_N z)).

End PyText.

Import PyText.

(** [get_next_ticket_no(tickets)]; [None] when indexing the pieces or
    [int] raises. *)
Definition get_next_ticket_no (tickets : list ticket) : option string :=
  match last tickets with
  | None => Some "TICKET-0001"
  | Some t =>
      let last_no := ticket_no t in
      match split_on "-" last_no !! 1%nat with
      | None => None
      | Some piece =>
          match py_int piece with
          | None => None
          | Some number => Some ("TICKET-" ++ format_04d (number + 1))
          end
      end
  end.

(** The label of a search result and the ticket selected through it:
    [f"{t['ticket_no']}: {t['description'][:50]}..."], then
    [selected_label.split(":")[0]] and the first result with that number;
    [None] when [next] finds none. *)
Definition result_label (t : ticket) : string :=
  ticket_no t ++ ": " ++ Slice.slice (description t) 0 50 ++ "...".

Definition selected_ticket (results : list ticket) (selected_label : string)
    : option ticket :=
  match split_on ":" selected_label with
  | ticket_no_ :: _ =>
      List.find (λ t, String.eqb (ticket_no t) ticket_no_) results
  | [] => None
  end.


(** ** Ticket creation and search *)

Section Handlers.
Context {llm : Type}.
Variable chat : request -> llm -> option string * llm.
Variable json_loads : string -> option (gmap string string).

(** The handler of the button "Create Ticket"; an exception of
    [get_next_ticket_no] leaves the handler before anything is written. *)
Definition create_ticket (user_input : string) : @M llm unit :=
  if negb (truthy (strip user_input)) then
    st_error "Please enter a ticket description."
  else
    tickets ← load_tickets;
    new_no ← match get_next_ticket_no tickets with
             | Some new_no => mret new_no
             | None => raise
             end;
    let new_ticket := Ticket new_no user_input "open" None None in
    let tickets := (tickets ++ [new_ticket])%list in
    _ ← save_tickets tickets;
    _ ← auto_process_open_tickets chat json_loads;
    st_success ("Ticket " ++ new_no ++ " created and processed!").

(** The dictionary of the [except] branch of [parse_search_query]. *)
Definition none_filters : gmap string string :=
  <["severity" := "none"]> (<["status" := "none"]> ∅).

(** The [try] block of [parse_search_query] on the text of the reply: cut
    from the first [{] to the last [}] and decode; the [except] branch
    replaces any failure. *)
Definition parse_search_reply (text : string) : gmap string string :=
  match json_loads
          (Slice.slice text (Slice.find "{"%char text)
             (Slice.rfind "}"%char text + 1)%Z) with
  | Some js => js
  | None => none_filters
  end.

(** What the handler of the button "Search" stores as search results:
    [filter_tickets(tickets, filters["status"], filters["severity"])];
    [None] when a key is missing. *)
Definition search_results (filters : gmap string string) (tickets : list ticket)
    : option (list ticket) :=
  match filters !! "status", filters !! "severity" with
  | Some status_q, Some severity_q =>
      Some (filter_tickets tickets status_q severity_q)
  | _, _ => None
  end.

End Handlers.

(** ** Further reference definitions *)

(** No character of the string is [c]. *)
Fixpoint free_of (c : ascii) (s : string) : bool :=
  match s with
  | EmptyString => true
  | String a r => negb (Ascii.eqb a c) && free_of c r
  end.

(** Every character of the string is a decimal digit. *)
Fixpoint all_digits (s : string) : bool :=
  match s with
  | EmptyString => true
  | String a r => in_range 48 57 (code a) && all_digits r
  end.

(** The ticket numbers [TICKET-0001], [TICKET-0002], ... up to the [k]-th. *)
Definition canonical_number (i : nat) : string :=
  "TICKET-" ++ format_04d (Z.of_nat i).
Definition canonical_numbers (k : nat) : list string :=
  canonical_number <$> seq 1 k.

(** Two states of one ticket: number, description and human resolution
    agree. *)
Definition same_identity (t t' : ticket) : Prop :=
  ticket_no t' = ticket_no t ∧ description t' = description t
  ∧ human_resolution t' = human_resolution t.

(** The analysis stored when the reply of the model cannot be decoded. *)
Definition unknown_analysis : gmap string jval :=
  <["propose_fix" := JStr "none"]>
    (<["confidence" := JInt 40]> (JStr <$> unknown_extraction)).

(** The grades that reach the threshold of 85: no field unsupported and at
    most one inferred. *)
Definition well_supported (g_issue g_sev g_sys : support) : bool :=
  match g_issue, g_sev, g_sys with
  | Verbatim, Verbatim, Verbatim
  | Inferred, Verbatim, Verbatim
  | Verbatim, Inferred, Verbatim
  | Verbatim, Verbatim, Inferred => true
  | _, _, _ => false
  end.

(** One grade supports a field at least as well as another. *)
Definition grade_le (g g' : support) : bool :=
  match g, g' with
  | Unsupported, _ | Inferred, Inferred | _, Verbatim => true
  | _, _ => false
  end.

(** The values the confidence can take. *)
Definition confidence_values : list Z :=
  [40; 43; 53; 56; 66; 69; 70; 76; 79; 89; 95]%Z.

(** The messages of success in a log. *)
Fixpoint successes (l : list event) : list string :=
  match l with
  | [] => []
  | Display (Success text) :: l' => text :: successes l'
  | _ :: l' => successes l'
  end.

(** ** More sample data *)

Module Example.

(** A model that is not reachable, and a decoder that rejects every text. *)
Definition down (r : request) (m : unit) : option string * unit := (None, m).
Definition no_json (s : string) : option (gmap string string) := None.

(** The sample store without its open ticket. *)
Definition settled : @world unit :=
  World (Some [Sample.t1; Sample.t2]) None tt [].

(** A ticket whose number has a colon. *)
Definition odd : ticket := Ticket "A:1" "Fan is loud" "closed" None None.

(** The worlds after the creation of a ticket in the sample store, with the
    sample model and with the model down. *)
Definition created : @world unit :=
  snd (create_ticket Sample.chat Sample.json_loads "Screen flickers" Sample.w0).
Definition stranded : @world unit :=
  snd (create_ticket down Sample.json_loads "Screen flickers" Sample.w0).

(** The world after a pass over the sample store with the model down. *)
Definition failed_pass : @world unit :=
  snd (auto_process_open_tickets down Sample.json_loads Sample.w0).

End Example.

(** * Properties *)

(** ** Strings *)

Lemma append_nil_l (s : string) : "" ++ s = s.
Proof. reflexivity. Qed.

Lemma append_cons (c : ascii) (a b : string) :
  String c a ++ b = String c (a ++ b).
Proof. reflexivity. Qed.

Lemma append_nil_r (s : string) : s ++ "" = s.
Proof.
  induction s as [|c s IH]; [reflexivity | by rewrite append_cons, IH].
Qed.

Lemma append_assoc (a b c : string) : (a ++ b) ++ c = a ++ b ++ c.
Proof.
  induction a as [|x a IH]; [reflexivity | by rewrite !append_cons, IH].
Qed.

Lemma last_char_app (prev : option ascii) (a b : string) :
  last_char prev (a ++ b) = last_char (last_char prev a) b.
Proof.
  revert prev. induction a as [|x a IH]; intros prev; [reflexivity |].
  rewrite append_cons. simpl. apply IH.
Qed.

Lemma ascii_eqb_true (a b : ascii) : Ascii.eqb a b = true ↔ a = b.
Proof. apply Ascii.eqb_eq. Qed.

Lemma string_eqb_true (a b : string) : String.eqb a b = true ↔ a = b.
Proof. apply String.eqb_eq. Qed.

Lemma truthy_false (s : string) : truthy s = false ↔ s = "".
Proof. destruct s; simpl; split; intros; congruence. Qed.

Lemma truthy_true (s : string) : truthy s = true ↔ s ≠ "".
Proof. destruct s; simpl; split; intros; congruence. Qed.

(** ** The pattern matcher against its declarative reading *)

Lemma match_literal_b_spec (prev : option ascii) (pat s : string) :
  Re.match_literal_b prev pat s = true
  ↔ ∃ post, s = pat ++ post ∧ Re.boundary (last_char prev pat) (head post) = true.
Proof.
  revert prev s. induction pat as [|p pat IH]; intros prev s; simpl.
  - setoid_rewrite append_nil_l. split.
    + intros H. exists s. auto.
    + intros (post & -> & H). exact H.
  - setoid_rewrite append_cons. destruct s as [|c s].
    + split; [discriminate | intros (post & H & _); discriminate].
    + destruct (Ascii.eqb p c) eqn:E.
      * apply ascii_eqb_true in E as ->. rewrite IH. split.
        -- intros (post & -> & H). exists post. auto.
        -- intros (post & H1 & H2). injection H1 as ->. exists post. auto.
      * split; [discriminate |]. intros (post & H1 & _). injection H1 as -> _.
        rewrite Ascii.eqb_refl in E. discriminate.
Qed.

Lemma search_from_spec (prev : option ascii) (pat s : string) :
  Re.search_from prev pat s = true
  ↔ ∃ pre post, s = pre ++ pat ++ post
      ∧ Re.boundary (last_char prev pre) (head (pat ++ post)) = true
      ∧ Re.boundary (last_char prev (pre ++ pat)) (head post) = true.
Proof.
  revert prev. induction s as [|c s IH]; intros prev.
  - simpl. rewrite orb_false_r. unfold Re.match_here.
    rewrite andb_true_iff, match_literal_b_spec. split.
    + intros (Hb & post & Hs & He). exists "", post.
      rewrite !append_nil_l, <- Hs. auto.
    + intros (pre & post & Hs & Hb & He).
      destruct pre; [|discriminate]. rewrite !append_nil_l in *.
      rewrite <- Hs in Hb. eauto.
  - cbn [Re.search_from]. rewrite orb_true_iff, IH. unfold Re.match_here.
    rewrite andb_true_iff, match_literal_b_spec. split.
    + intros [(Hb & post & Hs & He) | (pre & post & Hs & Hb & He)].
      * exists "", post. rewrite !append_nil_l, <- Hs. auto.
      * exists (String c pre), post. rewrite !append_cons, <- Hs. auto.
    + intros (pre & post & Hs & Hb & He). destruct pre as [|x pre].
      * left. rewrite !append_nil_l in *. rewrite <- Hs in Hb. eauto.
      * right. rewrite !append_cons in *. injection Hs as -> Hs.
        exists pre, post. auto.
Qed.

Lemma search_word_spec (fv text : string) :
  Re.search_word fv text = true ↔ occurs_word_bounded fv text.
Proof. apply search_from_spec. Qed.

(** ** Field scorer *)

Lemma no_value_test (fv : string) :
  negb (truthy fv) || String.eqb (lower fv) "unknown" = true ↔ no_value fv.
Proof.
  unfold no_value.
  rewrite orb_true_iff, negb_true_iff, truthy_false, string_eqb_true. tauto.
Qed.

Lemma field_score_grade (fv text : string) :
  field_score fv text =
    match grade fv text with
    | Unsupported => 0.3%float
    | Verbatim => 1.0%float
    | Inferred => 0.7%float
    end.
Proof.
  unfold field_score, grade.
  destruct (negb (truthy fv) || String.eqb (lower fv) "unknown"); [reflexivity |].
  cbv zeta. destruct (Re.search_word (lower fv) (lower text)); reflexivity.
Qed.

(** C4: the field scorer returns 0.3 for an empty value or [unknown] in any
    letter case; otherwise 1.0 when the lower-cased value occurs in the
    lower-cased text between word boundaries; and 0.7 in every other case. *)
Theorem field_score_three_cases (field_value source_text : string) :
  (no_value field_value → field_score field_value source_text = 0.3%float)
  ∧ (¬ no_value field_value →
     occurs_word_bounded (lower field_value) (lower source_text) →
     field_score field_value source_text = 1.0%float)
  ∧ (¬ no_value field_value →
     ¬ occurs_word_bounded (lower field_value) (lower source_text) →
     field_score field_value source_text = 0.7%float).
Proof.
  unfold field_score.
  destruct (negb (truthy field_value) || String.eqb (lower field_value) "unknown")
    eqn:Hn.
  - apply no_value_test in Hn. split; [|split]; intros; [reflexivity | tauto | tauto].
  - assert (¬ no_value field_value) as Hnv.
    { rewrite <- no_value_test, Hn. discriminate. }
    cbv zeta.
    destruct (Re.search_word (lower field_value) (lower source_text)) eqn:Hs.
    + apply search_word_spec in Hs.
      split; [|split]; intros; [tauto | reflexivity | tauto].
    + assert (¬ occurs_word_bounded (lower field_value) (lower source_text)) as Ho.
      { rewrite <- search_word_spec, Hs. discriminate. }
      split; [|split]; intros; [tauto | tauto | reflexivity].
Qed.

(** ** Confidence calculator *)

Lemma compute_confidence_grade (it sv sys d : string) :
  compute_confidence it sv sys d =
    py_round (normalize (cap (redundant it sys)
      (weighted
         (match grade it d with
          | Unsupported => 0.3 | Verbatim => 1.0 | Inferred => 0.7 end)
         (match grade sv d with
          | Unsupported => 0.3 | Verbatim => 1.0 | Inferred => 0.7 end)
         (match grade sys d with
          | Unsupported => 0.3 | Verbatim => 1.0 | Inferred => 0.7 end))))%float.
Proof. unfold compute_confidence. by rewrite !field_score_grade. Qed.

Ltac by_grades it sv sys d :=
  destruct (grade it d), (grade sv d), (grade sys d), (redundant it sys);
  vm_compute; try reflexivity; try (split; discriminate).

(** The value handed to [round] is finite, so [round] does not raise. *)
Lemma normalize_finite (it sv sys d : string) :
  is_finite
    (normalize (cap (redundant it sys)
       (weighted (field_score it d) (field_score sv d) (field_score sys d))))
  = true.
Proof. rewrite !field_score_grade. by_grades it sv sys d. Qed.

(** C2: the confidence is an integer between 40 and 95. *)
Theorem compute_confidence_range
    (issue_type severity affected_system description : string) :
  (40 ≤ compute_confidence issue_type severity affected_system description ≤ 95)%Z.
Proof.
  rewrite compute_confidence_grade.
  by_grades issue_type severity affected_system description.
Qed.

Lemma compute_confidence_exact (it sv sys d : string) :
  compute_confidence it sv sys d = exact_confidence it sv sys d.
Proof.
  rewrite compute_confidence_grade. unfold exact_confidence, exact_raw.
  by_grades it sv sys d.
Qed.

(** C1 (amended): the confidence is the exact decimal computation with the
    weights 0.33 of the source (weighted sum, cap at 70, clamp to [40, 95],
    nearest integer); for a triple without any value the raw percentage is
    29.7, below the floor, and the confidence is 40. *)
Theorem compute_confidence_weights
    (issue_type severity affected_system description : string) :
  compute_confidence issue_type severity affected_system description
    = exact_confidence issue_type severity affected_system description
  ∧ (no_value issue_type → no_value severity → no_value affected_system →
     (exact_raw issue_type severity affected_system description == 297 # 10)%Q
     ∧ PrimFloat.ltb
         (weighted (field_score issue_type description)
            (field_score severity description)
            (field_score affected_system description)) 40 = true
     ∧ compute_confidence issue_type severity affected_system description = 40%Z).
Proof.
  split; [apply compute_confidence_exact |].
  intros H1 H2 H3.
  rewrite compute_confidence_grade, !field_score_grade. unfold exact_raw, grade.
  apply no_value_test in H1, H2, H3. rewrite H1, H2, H3.
  destruct (redundant issue_type affected_system); vm_compute; auto.
Qed.

(** C5: when issue type and affected system are non-empty and equal up to
    letter case, the confidence is at most 70. *)
Theorem compute_confidence_redundancy_cap
    (issue_type severity affected_system description : string) :
  issue_type ≠ "" → affected_system ≠ "" →
  lower issue_type = lower affected_system →
  (compute_confidence issue_type severity affected_system description ≤ 70)%Z.
Proof.
  intros Hi Ha Heq.
  assert (redundant issue_type affected_system = true) as Hr.
  { unfold redundant. apply truthy_true in Hi, Ha. rewrite Hi, Ha, Heq.
    simpl. apply String.eqb_refl. }
  rewrite compute_confidence_grade, Hr.
  destruct (grade issue_type description), (grade severity description),
    (grade affected_system description); vm_compute; discriminate.
Qed.

(** ** Search filter *)

Lemma severity_of_lookup (t : ticket) :
  default ∅ (ai_analysis t) !! "severity" = severity_of t.
Proof. unfold severity_of. destruct (ai_analysis t); reflexivity. Qed.

Lemma filter_loop_spec (status_q severity_q : string) (tickets results : list ticket) :
  filter_loop status_q severity_q tickets results
  = (results ++ filter (facets_match status_q severity_q) tickets)%list.
Proof.
  revert results. induction tickets as [|t rest IH]; intros results.
  - simpl. by rewrite app_nil_r.
  - cbn [filter_loop]. cbv zeta. rewrite severity_of_lookup, filter_cons.
    destruct (negb (String.eqb status_q "none")
              && negb (String.eqb (status t) status_q)) eqn:E1.
    { apply andb_true_iff in E1 as [E1 E2].
      apply negb_true_iff in E1, E2.
      rewrite IH, decide_False; [reflexivity |].
      intros [[H | H] _]; apply string_eqb_true in H; congruence. }
    destruct (negb (String.eqb severity_q "none")
              && negb (bool_decide (severity_of t = Some (JStr severity_q)))) eqn:E2.
    { apply andb_true_iff in E2 as [E2 E3].
      apply negb_true_iff in E2, E3. apply bool_decide_eq_false in E3.
      rewrite IH, decide_False; [reflexivity |].
      intros [_ [H | H]]; [apply string_eqb_true in H; congruence | done]. }
    rewrite IH, decide_True, <- app_assoc; [reflexivity |].
    apply andb_false_iff in E1, E2. split.
    + destruct E1 as [E | E]; apply negb_false_iff, string_eqb_true in E; auto.
    + destruct E2 as [E | E]; apply negb_false_iff in E.
      * apply string_eqb_true in E. auto.
      * apply bool_decide_eq_true in E. auto.
Qed.

(** C9: the filter returns, in the original order, exactly the tickets whose
    status and severity match every facet that is not [none]; a ticket
    without extraction result matches no severity; with both facets [none]
    the list is returned as it is. *)
Theorem filter_tickets_spec (tickets : list ticket) (status_q severity_q : string) :
  filter_tickets tickets status_q severity_q
    = filter (facets_match status_q severity_q) tickets
  ∧ filter_tickets tickets status_q severity_q `sublist_of` tickets
  ∧ (∀ t, t ∈ filter_tickets tickets status_q severity_q
          ↔ t ∈ tickets ∧ facets_match status_q severity_q t)
  ∧ (∀ t, ai_analysis t = None → severity_q ≠ "none" →
          t ∉ filter_tickets tickets status_q severity_q)
  ∧ filter_tickets tickets "none" "none" = tickets.
Proof.
  assert (∀ st sv, filter_tickets tickets st sv
                   = filter (facets_match st sv) tickets) as Heq.
  { intros. unfold filter_tickets. by rewrite filter_loop_spec. }
  rewrite !Heq. split; [reflexivity |]. split; [apply sublist_filter |].
  split; [intros t; rewrite list_elem_of_filter; tauto |].
  split.
  - intros t Hai Hsv. rewrite list_elem_of_filter.
    intros [[_ [H | H]] _]; [done |].
    unfold severity_of in H. rewrite Hai in H. discriminate.
  - induction tickets as [|t rest IH]; [reflexivity |].
    rewrite filter_cons, decide_True; [| split; auto].
    f_equal. apply IH. intros. unfold filter_tickets. by rewrite filter_loop_spec.
Qed.

(** ** Automatic processing *)

Section Automatic.
Context {llm : Type}.
Variable chat : request -> llm -> option string * llm.
Variable json_loads : string -> option (gmap string string).

Abbreviation world := (@world llm).
Abbreviation M := (@M llm).

Lemma bind_ok {A B} (m : M A) (f : A → M B) w b w' :
  (m ≫= f) w = (Ok b, w') ↔ ∃ a w1, m w = (Ok a, w1) ∧ f a w1 = (Ok b, w').
Proof.
  unfold mbind, M_bind. destruct (m w) as [[a|] w1]; split.
  - intros H. eauto.
  - intros (a' & w1' & [= -> ->] & H). exact H.
  - discriminate.
  - intros (a' & w1' & [=] & _).
Qed.

Lemma fix_requests_app l1 l2 :
  fix_requests (l1 ++ l2) = (fix_requests l1 ++ fix_requests l2)%list.
Proof.
  induction l1 as [|e l1 IH]; [reflexivity |].
  destruct e as [[]| | |]; simpl; rewrite IH; reflexivity.
Qed.

Lemma scored_app l1 l2 : scored (l1 ++ l2) = (scored l1 ++ scored l2)%list.
Proof.
  induction l1 as [|e l1 IH]; [reflexivity |].
  destruct e as [[]| | |]; simpl; rewrite IH; reflexivity.
Qed.

(** What one call of the model does to the world. *)
Lemma ollama_chat_inv r w o w' :
  ollama_chat chat r w = (o, w') →
  tickets_file w' = tickets_file w ∧ memory_file w' = memory_file w
  ∧ log w' = (log w ++ [Chat r])%list.
Proof.
  unfold ollama_chat. destruct (chat r (model w)) as [[c|] m]; intros [= <- <-]; auto.
Qed.

Lemma generate_proposed_fix_inv d w o w' :
  generate_proposed_fix chat d w = (o, w') →
  tickets_file w' = tickets_file w ∧ memory_file w' = memory_file w
  ∧ log w' = (log w ++ [Chat (FixPrompt d)])%list.
Proof.
  unfold generate_proposed_fix, mbind, M_bind.
  destruct (ollama_chat chat (FixPrompt d) w) as [[c|] w1] eqn:E;
    apply ollama_chat_inv in E; intros [= <- <-]; exact E.
Qed.

Lemma analyze_ticket_inv d w o w' :
  analyze_ticket chat json_loads d w = (o, w') →
  tickets_file w' = tickets_file w ∧ memory_file w' = memory_file w
  ∧ scored (log w') = (scored (log w) ++ [d])%list.
Proof.
  unfold analyze_ticket, mbind at 1, M_bind at 1.
  destruct (ollama_chat chat (ExtractionPrompt d) w) as [[c|] w1] eqn:E;
    apply ollama_chat_inv in E as (E1 & E2 & E3).
  - cbv zeta. case (85 <=? _)%Z.
    + unfold mbind, M_bind.
      destruct (generate_proposed_fix chat d w1) as [[f|] w2] eqn:G;
        apply generate_proposed_fix_inv in G as (G1 & G2 & G3);
        intros [= <- <-]; rewrite G1, G2, G3, E1, E2, E3, !scored_app; simpl;
        rewrite app_nil_r; auto.
    + intros [= <- <-]. rewrite E1, E2, E3, scored_app. auto.
  - intros [= <- <-]. rewrite E1, E2, E3, scored_app. auto.
Qed.

Lemma str_field_analysis (e : gmap string string) (k : string) c f :
  k ≠ "confidence" → k ≠ "propose_fix" →
  str_field (<["propose_fix" := f]> (<["confidence" := c]> (JStr <$> e))) k
  = default "" (e !! k).
Proof.
  intros H1 H2. unfold str_field.
  rewrite lookup_insert_ne, lookup_insert_ne, lookup_fmap by done.
  destruct (e !! k); reflexivity.
Qed.

Lemma stored_confidence_analysis (e : gmap string string) d c f :
  stored_confidence (<["propose_fix" := f]> (<["confidence" := c]> (JStr <$> e))) d
  = compute_confidence (default "" (e !! "issue_type"))
      (default "" (e !! "severity")) (default "" (e !! "affected_system")) d.
Proof. unfold stored_confidence. by rewrite !str_field_analysis. Qed.

(** The analysis of a ticket: the stored confidence is the computed one, and
    the fix generator runs exactly when it reaches 85. *)
Lemma analyze_ticket_ok d w a w' :
  analyze_ticket chat json_loads d w = (Ok a, w') →
  a !! "confidence" = Some (JInt (stored_confidence a d))
  ∧ ((85 ≤ stored_confidence a d)%Z →
     ∃ w1 fix_, generate_proposed_fix chat d w1 = (Ok fix_, w')
       ∧ a !! "propose_fix" = Some (JStr fix_)
       ∧ fix_requests (log w') = (fix_requests (log w) ++ [d])%list)
  ∧ ((stored_confidence a d < 85)%Z →
     a !! "propose_fix" = Some (JStr "none")
     ∧ fix_requests (log w') = fix_requests (log w)).
Proof.
  unfold analyze_ticket. intros H.
  apply bind_ok in H as (content & w1 & Hc & H).
  apply ollama_chat_inv in Hc as (_ & _ & Hlog).
  cbv zeta in H.
  set (e := parse_extraction json_loads content) in *.
  set (conf := compute_confidence _ _ _ d) in *.
  destruct (85 <=? conf)%Z eqn:Hconf.
  - apply bind_ok in H as (fix_ & w2 & Hg & [= <- <-]).
    rewrite stored_confidence_analysis. fold conf.
    split; [by rewrite lookup_insert_ne, lookup_insert_eq |]. split.
    + intros _. exists w1, fix_. split; [exact Hg |].
      split; [by rewrite lookup_insert_eq |].
      apply generate_proposed_fix_inv in Hg as (_ & _ & ->).
      rewrite Hlog, !fix_requests_app. simpl. by rewrite app_nil_r.
    + lia.
  - injection H as <- <-.
    rewrite stored_confidence_analysis. fold conf.
    split; [by rewrite lookup_insert_ne, lookup_insert_eq |]. split.
    + lia.
    + intros _. split; [by rewrite lookup_insert_eq |].
      rewrite Hlog, fix_requests_app. simpl. by rewrite app_nil_r.
Qed.

Lemma process_open_ticket_ok t w t' w' :
  process_open_ticket chat json_loads t w = (Ok t', w') →
  ∃ a, analyze_ticket chat json_loads (description t) w = (Ok a, w')
    ∧ t' = set_status
             (if (85 <=? stored_confidence a (description t))%Z
              then "closed" else "need review")
             (set_ai_analysis a t).
Proof.
  unfold process_open_ticket. intros H.
  apply bind_ok in H as (a & w1 & Ha & H). exists a.
  pose proof (analyze_ticket_ok _ _ _ _ Ha) as (Hc & _).
  unfold confidence_ge_85 in H. rewrite Hc in H.
  apply bind_ok in H as (high & w2 & [= <- <-] & H).
  destruct (85 <=? _)%Z; injection H as <- <-; auto.
Qed.

Lemma process_open_ticket_inv t w o w' :
  process_open_ticket chat json_loads t w = (o, w') →
  tickets_file w' = tickets_file w ∧ memory_file w' = memory_file w
  ∧ scored (log w') = (scored (log w) ++ [description t])%list.
Proof.
  unfold process_open_ticket, mbind at 1, M_bind at 1.
  destruct (analyze_ticket chat json_loads (description t) w) as [[a|] w1] eqn:Ha.
  - pose proof (analyze_ticket_ok _ _ _ _ Ha) as (Hc & _).
    apply analyze_ticket_inv in Ha.
    unfold confidence_ge_85. rewrite Hc. unfold mbind, M_bind, mret, M_ret.
    destruct (85 <=? _)%Z; intros [= <- <-]; exact Ha.
  - apply analyze_ticket_inv in Ha. intros [= <- <-]. exact Ha.
Qed.

Lemma status_open_test (t : ticket) : String.eqb (status t) "open" = true ↔ is_open t.
Proof. apply string_eqb_true. Qed.

(** The loop, whatever its outcome: the files are not written and one
    extraction is requested per open ticket met. *)
Lemma process_loop_inv ts changed w o w' :
  process_loop chat json_loads ts changed w = (o, w') →
  tickets_file w' = tickets_file w ∧ memory_file w' = memory_file w
  ∧ (∀ r, o = Ok r →
       scored (log w') = (scored (log w) ++ (description <$> filter is_open ts))%list).
Proof.
  revert changed w o w'. induction ts as [|t rest IH]; intros changed w o w'.
  - intros [= <- <-]. simpl. rewrite app_nil_r. auto.
  - cbn [process_loop]. rewrite filter_cons.
    destruct (String.eqb (status t) "open") eqn:E.
    + apply status_open_test in E. rewrite decide_True by done.
      unfold mbind at 1, M_bind at 1.
      destruct (process_open_ticket chat json_loads t w) as [[t'|] w1] eqn:Ht;
        apply process_open_ticket_inv in Ht as (T1 & T2 & T3).
      * unfold mbind, M_bind.
        destruct (process_loop chat json_loads rest true w1) as [[[rest' c']|] w2] eqn:Hr;
          apply IH in Hr as (R1 & R2 & R3); intros [= <- <-];
          (split; [congruence |]; split; [congruence |]); [|discriminate].
        intros r _. rewrite (R3 _ eq_refl), T3, fmap_cons, <- app_assoc. reflexivity.
      * intros [= <- <-]. split; [done |]. split; [done |]. discriminate.
    + assert (¬ is_open t) as Hn by (rewrite <- status_open_test, E; discriminate).
      rewrite decide_False by done. unfold mbind, M_bind.
      destruct (process_loop chat json_loads rest changed w) as [[[rest' c']|] w2] eqn:Hr;
        apply IH in Hr as (R1 & R2 & R3); intros [= <- <-];
        (split; [congruence |]; split; [congruence |]); [|discriminate].
      intros r _. apply (R3 _ eq_refl).
Qed.

Lemma analyze_ticket_log d w o w' :
  analyze_ticket chat json_loads d w = (o, w') → log w `prefix_of` log w'.
Proof.
  unfold analyze_ticket, mbind at 1, M_bind at 1.
  destruct (ollama_chat chat (ExtractionPrompt d) w) as [[c|] w1] eqn:E;
    apply ollama_chat_inv in E as (_ & _ & E).
  - cbv zeta. case (85 <=? _)%Z.
    + unfold mbind, M_bind.
      destruct (generate_proposed_fix chat d w1) as [[f|] w2] eqn:G;
        apply generate_proposed_fix_inv in G as (_ & _ & G);
        intros [= <- <-]; rewrite G, E, <- app_assoc; apply prefix_app_r; done.
    + intros [= <- <-]. rewrite E. by apply prefix_app_r.
  - intros [= <- <-]. rewrite E. by apply prefix_app_r.
Qed.

Lemma process_open_ticket_log t w o w' :
  process_open_ticket chat json_loads t w = (o, w') → log w `prefix_of` log w'.
Proof.
  unfold process_open_ticket, mbind at 1, M_bind at 1.
  destruct (analyze_ticket chat json_loads (description t) w) as [[a|] w1] eqn:Ha.
  - pose proof (analyze_ticket_ok _ _ _ _ Ha) as (Hc & _).
    apply analyze_ticket_log in Ha.
    unfold confidence_ge_85. rewrite Hc. unfold mbind, M_bind, mret, M_ret.
    destruct (85 <=? _)%Z; intros [= <- <-]; exact Ha.
  - apply analyze_ticket_log in Ha. intros [= <- <-]. exact Ha.
Qed.

Lemma process_loop_log ts changed w o w' :
  process_loop chat json_loads ts changed w = (o, w') → log w `prefix_of` log w'.
Proof.
  revert changed w o w'. induction ts as [|t rest IH]; intros changed w o w'.
  - intros [= <- <-]. done.
  - cbn [process_loop]. destruct (String.eqb (status t) "open").
    + unfold mbind at 1, M_bind at 1.
      destruct (process_open_ticket chat json_loads t w) as [[t'|] w1] eqn:Ht;
        apply process_open_ticket_log in Ht.
      * unfold mbind, M_bind.
        destruct (process_loop chat json_loads rest true w1) as [[[rest' c']|] w2] eqn:Hr;
          apply IH in Hr; intros [= <- <-]; by etrans.
      * intros [= <- <-]. done.
    + unfold mbind, M_bind.
      destruct (process_loop chat json_loads rest changed w) as [[[rest' c']|] w2] eqn:Hr;
        apply IH in Hr; intros [= <- <-]; done.
Qed.

Lemma any_open_false ts : any_open ts = false ↔ Forall (λ t, ¬ is_open t) ts.
Proof.
  induction ts as [|t ts IH]; simpl.
  - split; auto.
  - rewrite orb_false_iff, IH, Forall_cons. unfold is_open.
    rewrite <- (string_eqb_true (status t)).
    destruct (String.eqb (status t) "open"); intuition congruence.
Qed.

(** The loop when it completes, ticket by ticket. *)
Lemma process_loop_ok ts changed w ts' changed' w' :
  process_loop chat json_loads ts changed w = (Ok (ts', changed'), w') →
  length ts' = length ts
  ∧ changed' = changed || any_open ts
  ∧ Forall (λ t, ¬ is_open t) ts'
  ∧ (∀ i t, ts !! i = Some t → ¬ is_open t → ts' !! i = Some t)
  ∧ (∀ i t, ts !! i = Some t → is_open t →
       ∃ t' w1 w2, ts' !! i = Some t'
         ∧ process_open_ticket chat json_loads t w1 = (Ok t', w2)
         ∧ log w `prefix_of` log w1 ∧ log w2 `prefix_of` log w').
Proof.
  revert changed w ts' changed' w'.
  induction ts as [|t rest IH]; intros changed w ts' changed' w'.
  - intros [= <- <- <-]. rewrite orb_false_r. repeat split; try done.
  - cbn [process_loop any_open existsb].
    destruct (String.eqb (status t) "open") eqn:E.
    + apply status_open_test in E. intros H.
      apply bind_ok in H as (t1 & w1 & Ht & H).
      apply bind_ok in H as ([rest' c'] & w2 & Hr & [= <- <- <-]).
      pose proof (process_loop_log _ _ _ _ _ Hr) as Hlog2.
      pose proof (process_open_ticket_log _ _ _ _ Ht) as Hlog1.
      apply IH in Hr as (L & C & F & N & O).
      split; [simpl; congruence |].
      split; [rewrite C; simpl; by rewrite orb_true_r |].
      split.
      { apply Forall_cons. split; [| exact F].
        apply process_open_ticket_ok in Ht as (a & _ & ->).
        unfold is_open. destruct (85 <=? _)%Z; simpl; discriminate. }
      split.
      * intros [|i] u Hu Hn; simpl in *; [congruence | eauto].
      * intros [|i] u Hu Ho; simpl in *.
        -- injection Hu as <-. exists t1, w, w1. auto.
        -- destruct (O i u Hu Ho) as (u' & wa & wb & H1 & H2 & H3 & H4).
           exists u', wa, wb. repeat split; try done. by etrans.
    + assert (¬ is_open t) as Hn by (rewrite <- status_open_test, E; discriminate).
      intros H.
      apply bind_ok in H as ([rest' c'] & w2 & Hr & [= <- <- <-]).
      apply IH in Hr as (L & C & F & N & O).
      split; [simpl; congruence |].
      split; [exact C |].
      split; [by apply Forall_cons |].
      split.
      * intros [|i] u Hu Hn'; simpl in *; [congruence | eauto].
      * intros [|i] u Hu Ho; simpl in *; [congruence | eauto].
Qed.

(** With no open ticket the loop does nothing. *)
Lemma process_loop_no_open ts changed w :
  Forall (λ t, ¬ is_open t) ts →
  process_loop chat json_loads ts changed w = (Ok (ts, changed), w).
Proof.
  induction 1 as [|t rest Ht _ IH]; [reflexivity |].
  cbn [process_loop].
  destruct (String.eqb (status t) "open") eqn:E;
    [by apply status_open_test in E |].
  unfold mbind, M_bind. by rewrite IH.
Qed.

Lemma auto_process_unfold w :
  auto_process_open_tickets chat json_loads w =
    match process_loop chat json_loads (stored w) false w with
    | (Ok (tickets, true), w1) => save_tickets tickets w1
    | (Ok (tickets, false), w1) => (Ok tt, w1)
    | (Raised, w1) => (Raised, w1)
    end.
Proof.
  unfold auto_process_open_tickets, mbind, M_bind, load_tickets, stored.
  destruct (process_loop _ _ _ _ _) as [[[ts []]|] w1]; reflexivity.
Qed.


(** C6: the automatic pass leaves every ticket that is not open as it is and
    requests one extraction per open ticket, none for the others; a second
    pass after a completed one changes nothing at all: no file, no call of
    the model, no message. *)
Theorem auto_pass_only_open_idempotent (w w' : world) (o : outcome unit) :
  auto_process_open_tickets chat json_loads w = (o, w') →
  length (stored w') = length (stored w)
  ∧ (∀ i t, stored w !! i = Some t → ¬ is_open t → stored w' !! i = Some t)
  ∧ memory_file w' = memory_file w
  ∧ (o = Ok tt →
     scored (log w')
       = (scored (log w) ++ (description <$> filter is_open (stored w)))%list
     ∧ auto_process_open_tickets chat json_loads w' = (Ok tt, w')).
Proof.
  intros H. rewrite auto_process_unfold in H.
  destruct (process_loop chat json_loads (stored w) false w)
    as [[[ts' changed]|] w1] eqn:Hloop.
  - pose proof (process_loop_ok _ _ _ _ _ _ Hloop) as (L & C & F & N & _).
    pose proof (process_loop_inv _ _ _ _ _ Hloop) as (T & Mm & S).
    specialize (S _ eq_refl). simpl in C.
    assert (stored w' = ts' ∧ memory_file w' = memory_file w
            ∧ scored (log w') = scored (log w1) ∧ o = Ok tt) as (E1 & E2 & E3 & ->).
    { destruct changed; injection H as <- <-.
      - simpl. rewrite scored_app. simpl. rewrite app_nil_r. auto.
      - symmetry in C. apply any_open_false in C.
        assert (ts' = stored w) as ->.
        { apply list_eq. intros i. destruct (stored w !! i) as [t|] eqn:Hi.
          - apply (N i t Hi). eapply Forall_lookup_1 in C; eauto.
          - apply lookup_ge_None. apply lookup_ge_None in Hi. lia. }
        unfold stored. rewrite T. auto. }
    rewrite E1. split; [exact L |]. split; [exact N |]. split; [exact E2 |].
    intros _. split; [by rewrite E3 |].
    rewrite auto_process_unfold, E1, process_loop_no_open by exact F.
    reflexivity.
  - injection H as <- <-.
    pose proof (process_loop_inv _ _ _ _ _ Hloop) as (T & Mm & _).
    unfold stored. rewrite T. split; [done |]. split; [done |].
    split; [done |]. discriminate.
Qed.

End Automatic.

(** ** Manual closure *)

Lemma is_space_upper (c : ascii) : is_space (upper_char c) = is_space c.
Proof. destruct c as [[] [] [] [] [] [] [] []]; reflexivity. Qed.

Lemma lstrip_app_blank (l s : string) : blank l = true → lstrip (l ++ s) = lstrip s.
Proof.
  induction l as [|c l IH]; [reflexivity |]. intros H. simpl in H.
  apply andb_true_iff in H as [Hc Hl]. rewrite append_cons. simpl.
  rewrite Hc. auto.
Qed.

Lemma lstrip_blank (l : string) : blank l = true → lstrip l = "".
Proof.
  intros H. rewrite <- (append_nil_r l), lstrip_app_blank by done. reflexivity.
Qed.

Lemma rstrip_blank (r : string) : blank r = true → rstrip r = "".
Proof.
  induction r as [|c r IH]; [reflexivity |]. simpl. intros H.
  apply andb_true_iff in H as [Hc Hr]. rewrite IH, Hc by done. reflexivity.
Qed.

Lemma rstrip_app_blank (s r : string) : blank r = true → rstrip (s ++ r) = rstrip s.
Proof.
  intros H. induction s as [|c s IH]; [by apply rstrip_blank |].
  rewrite append_cons. simpl. by rewrite IH.
Qed.

Lemma strip_app_blank_r (s r : string) : blank r = true → strip (s ++ r) = strip s.
Proof.
  intros H. unfold strip. induction s as [|c s IH].
  - rewrite append_nil_l, lstrip_blank by done. reflexivity.
  - rewrite append_cons. simpl. destruct (is_space c); [exact IH |].
    rewrite <- append_cons. by apply rstrip_app_blank.
Qed.

Lemma strip_padding (l s r : string) :
  blank l = true → blank r = true → strip (l ++ s ++ r) = strip s.
Proof.
  intros Hl Hr. unfold strip. rewrite lstrip_app_blank by done.
  by apply strip_app_blank_r.
Qed.

Lemma lstrip_upper (s : string) : lstrip (upper s) = upper (lstrip s).
Proof.
  induction s as [|c s IH]; [reflexivity |]. simpl.
  rewrite is_space_upper. destruct (is_space c); [exact IH | reflexivity].
Qed.

Lemma rstrip_upper (s : string) : rstrip (upper s) = upper (rstrip s).
Proof.
  unfold upper. induction s as [|c s IH]; [reflexivity |]. simpl.
  rewrite IH, is_space_upper.
  destruct (rstrip s); simpl; [destruct (is_space c) |]; reflexivity.
Qed.

Lemma strip_upper (s : string) : strip (upper s) = upper (strip s).
Proof. unfold strip. by rewrite lstrip_upper, rstrip_upper. Qed.

Lemma truthy_upper (s : string) : truthy (upper s) = truthy s.
Proof. destruct s; reflexivity. Qed.

Lemma lstrip_split (s : string) : ∃ l, s = l ++ lstrip s ∧ blank l = true.
Proof.
  induction s as [|c s (l & E & B)]; [by exists "" |]. simpl.
  destruct (is_space c) eqn:Hc.
  - exists (String c l). rewrite append_cons, <- E. simpl. by rewrite Hc, B.
  - by exists "".
Qed.

Lemma rstrip_split (s : string) : ∃ r, s = rstrip s ++ r ∧ blank r = true.
Proof.
  induction s as [|c s (r & E & B)]; [by exists "" |]. simpl.
  destruct (rstrip s) as [|x y] eqn:Hr.
  - rewrite append_nil_l in E. subst r. destruct (is_space c) eqn:Hc.
    + exists (String c s). split; [reflexivity |]. simpl. by rewrite Hc, B.
    + exists s. by rewrite append_cons, append_nil_l.
  - exists r. by rewrite append_cons, <- E.
Qed.

Lemma strip_split (s : string) :
  ∃ l r, s = l ++ strip s ++ r ∧ blank l = true ∧ blank r = true.
Proof.
  destruct (lstrip_split s) as (l & El & Bl).
  destruct (rstrip_split (lstrip s)) as (r & Er & Br).
  exists l, r. unfold strip. by rewrite <- Er, <- El.
Qed.

(** Where the handler looks for the ticket: two numbers are the same when
    they differ in letter case and surrounding white space only. *)
Lemma same_number_padding (stored_no entered : string) :
  differ_only_in_case_and_padding stored_no entered →
  same_number stored_no entered = true.
Proof.
  intros (la & ca & ra & lb & cb & rb & -> & -> & Hla & Hra & Hlb & Hrb & Hc).
  unfold same_number. apply string_eqb_true.
  rewrite !strip_padding, <- !strip_upper, Hc by done. reflexivity.
Qed.

Lemma same_number_spec (stored_no entered : string) :
  same_number stored_no entered = true
  ↔ differ_only_in_case_and_padding stored_no entered.
Proof.
  split; [| apply same_number_padding].
  intros H. apply string_eqb_true in H.
  destruct (strip_split stored_no) as (la & ra & Ea & Bla & Bra).
  destruct (strip_split entered) as (lb & rb & Eb & Blb & Brb).
  exists la, (strip stored_no), ra, lb, (strip entered), rb. auto 10.
Qed.

Section Closure.
Context {llm : Type}.
Abbreviation world := (@world llm).

Lemma close_loop_absent (n notes : string) (seen ts : list ticket) (w : world) :
  none_matches n ts → close_loop n notes seen ts w = (Ok false, w).
Proof.
  intros H. revert seen. induction H as [|t ts Ht _ IH]; intros seen; [reflexivity |].
  cbn [close_loop]. rewrite Ht. apply IH.
Qed.

Lemma close_loop_found (n notes : string) (seen pre : list ticket) (t : ticket)
    (post : list ticket) (w : world) :
  none_matches n pre → same_number (ticket_no t) n = true →
  close_loop n notes seen (pre ++ t :: post) w =
    if String.eqb (status t) "need review"
    then (Ok true, closed_world w n notes (seen ++ pre) t post)
    else (Ok false, with_log w (log w ++ [Display (Error not_in_review)])).
Proof.
  intros H Ht. revert seen. induction H as [|u pre Hu _ IH]; intros seen.
  - cbn [app close_loop]. rewrite Ht, app_nil_r.
    destruct (String.eqb (status t) "need review"); [| reflexivity].
    unfold closed_world, remembered. simpl.
    unfold mbind, M_bind, save_tickets, load_memory, save_memory, st_success, record.
    simpl. rewrite <- !app_assoc. reflexivity.
  - cbn [app close_loop]. rewrite Hu, IH, <- app_assoc. reflexivity.
Qed.

Lemma strip_truthy (s : string) : strip s ≠ "" → negb (truthy (strip s)) = false.
Proof. intros H. apply negb_false_iff, truthy_true, H. Qed.

Lemma manual_closure_accepts (w : world) (n notes : string)
    (pre : list ticket) (t : ticket) (post : list ticket) :
  strip n ≠ "" → strip notes ≠ "" →
  stored w = (pre ++ t :: post)%list →
  none_matches n pre → same_number (ticket_no t) n = true →
  status t = "need review" →
  close_ticket_manually n notes w = (Ok tt, closed_world w n notes pre t post).
Proof.
  intros Hn Hnotes Hst Hpre Ht Hs. unfold close_ticket_manually.
  rewrite (strip_truthy _ Hn), (strip_truthy _ Hnotes).
  unfold mbind at 1, M_bind at 1, load_tickets. fold (stored w). rewrite Hst.
  unfold mbind, M_bind. rewrite close_loop_found, Hs by done. reflexivity.
Qed.

Lemma manual_closure_wrong_state (w : world) (n notes : string)
    (pre : list ticket) (t : ticket) (post : list ticket) :
  strip n ≠ "" → strip notes ≠ "" →
  stored w = (pre ++ t :: post)%list →
  none_matches n pre → same_number (ticket_no t) n = true →
  status t ≠ "need review" →
  close_ticket_manually n notes w
    = (Ok tt, with_log w (log w ++ [Display (Error not_in_review);
                                    Display (Error not_found)])%list).
Proof.
  intros Hn Hnotes Hst Hpre Ht Hs. unfold close_ticket_manually.
  rewrite (strip_truthy _ Hn), (strip_truthy _ Hnotes).
  unfold mbind at 1, M_bind at 1, load_tickets. fold (stored w). rewrite Hst.
  unfold mbind, M_bind. rewrite close_loop_found by done.
  apply String.eqb_neq in Hs. rewrite Hs. simpl.
  unfold st_error, record, with_log. simpl. rewrite <- app_assoc. reflexivity.
Qed.

Lemma manual_closure_absent (w : world) (n notes : string) :
  strip n ≠ "" → strip notes ≠ "" → none_matches n (stored w) →
  close_ticket_manually n notes w
    = (Ok tt, with_log w (log w ++ [Display (Error not_found)])%list).
Proof.
  intros Hn Hnotes H. unfold close_ticket_manually.
  rewrite (strip_truthy _ Hn), (strip_truthy _ Hnotes).
  unfold mbind at 1, M_bind at 1, load_tickets. fold (stored w).
  unfold mbind, M_bind. rewrite close_loop_absent by done. reflexivity.
Qed.

Lemma manual_closure_blank (w : world) (n notes : string) :
  strip n = "" ∨ strip notes = "" →
  ∃ text, close_ticket_manually n notes w
          = (Ok tt, with_log w (log w ++ [Display (Error text)])%list).
Proof.
  intros H. unfold close_ticket_manually.
  destruct (truthy (strip n)) eqn:En; simpl; [| eauto].
  destruct (truthy (strip notes)) eqn:Enotes; simpl; [| eauto].
  apply truthy_true in En, Enotes. tauto.
Qed.

Lemma none_matches_middle (n : string) (pre : list ticket) (t : ticket)
    (post : list ticket) :
  same_number (ticket_no t) n = true → ¬ none_matches n (pre ++ t :: post)%list.
Proof.
  intros Ht Hc. unfold none_matches in Hc.
  rewrite Forall_app, Forall_cons in Hc. destruct Hc as (_ & Hc & _). congruence.
Qed.

(** C7 (amended): with a ticket number and notes that are not blank, and the
    first ticket carrying that number in [need review], manual closure
    rewrites the store with that ticket closed and its [human_resolution]
    set to the notes, and appends one entry to the resolution memory. *)
Theorem manual_closure_need_review (w : world) (n notes : string)
    (pre : list ticket) (t : ticket) (post : list ticket) :
  strip n ≠ "" → strip notes ≠ "" →
  stored w = (pre ++ t :: post)%list →
  none_matches n pre → same_number (ticket_no t) n = true →
  status t = "need review" →
  close_ticket_manually n notes w = (Ok tt, closed_world w n notes pre t post)
  ∧ stored (closed_world w n notes pre t post)
      = (pre ++ close_ticket notes t :: post)%list
  ∧ status (close_ticket notes t) = "closed"
  ∧ human_resolution (close_ticket notes t) = Some notes
  ∧ ticket_no (close_ticket notes t) = ticket_no t
  ∧ description (close_ticket notes t) = description t
  ∧ ai_analysis (close_ticket notes t) = ai_analysis t
  ∧ remembered (closed_world w n notes pre t post)
      = (remembered w ++ [MemoryEntry n notes true])%list.
Proof.
  intros Hn Hnotes Hst Hpre Ht Hs.
  split; [by apply manual_closure_accepts | repeat split].
Qed.

(** C8: when no stored ticket carries the entered number, or the first that
    does is not in [need review], manual closure writes neither file and
    only reports errors; with inputs that are not blank the error is the
    lookup failure, preceded in the second case by the state failure. *)
Theorem manual_closure_rejected (w : world) (n notes : string) :
  none_matches n (stored w)
  ∨ (∃ pre t post, stored w = (pre ++ t :: post)%list ∧ none_matches n pre
       ∧ same_number (ticket_no t) n = true ∧ status t ≠ "need review") →
  ∃ errors : list string,
    close_ticket_manually n notes w
      = (Ok tt, with_log w (log w ++ (Display ∘ Error <$> errors))%list)
    ∧ errors ≠ []
    ∧ (strip n ≠ "" → strip notes ≠ "" →
       (none_matches n (stored w) → errors = [not_found])
       ∧ (¬ none_matches n (stored w) → errors = [not_in_review; not_found])).
Proof.
  intros H.
  destruct (decide (strip n = "")) as [Hn | Hn];
    [| destruct (decide (strip notes = "")) as [Hnotes | Hnotes]].
  - destruct (manual_closure_blank w n notes) as (text & E); [auto |].
    exists [text]. split; [exact E |]. split; [done |]. tauto.
  - destruct (manual_closure_blank w n notes) as (text & E); [auto |].
    exists [text]. split; [exact E |]. split; [done |]. tauto.
  - destruct H as [H | (pre & t & post & Hst & Hpre & Ht & Hs)].
    + exists [not_found]. split; [by apply manual_closure_absent |].
      split; [done |]. intros _ _. split; [done |]. tauto.
    + exists [not_in_review; not_found].
      split; [by eapply manual_closure_wrong_state |].
      split; [done |]. intros _ _. split; [| done].
      intros Hc. rewrite Hst in Hc. by apply none_matches_middle in Hc.
Qed.

(** Two entered numbers that match the same stored numbers lead the loop to
    the same ticket, the same flag and the same ticket file. *)
Lemma close_loop_same_store (n n' notes : string) (seen ts : list ticket) (w : world) :
  (∀ u, same_number (ticket_no u) n = same_number (ticket_no u) n') →
  fst (close_loop n notes seen ts w) = fst (close_loop n' notes seen ts w)
  ∧ tickets_file (snd (close_loop n notes seen ts w))
    = tickets_file (snd (close_loop n' notes seen ts w)).
Proof.
  intros H. revert seen. induction ts as [|t ts IH]; intros seen; [done |].
  cbn [close_loop]. rewrite <- H.
  destruct (same_number (ticket_no t) n); [| apply IH].
  destruct (String.eqb (status t) "need review"); done.
Qed.

Lemma manual_closure_same_store (n n' notes : string) (w : world) :
  same_number n' n = true →
  stored (snd (close_ticket_manually n notes w))
  = stored (snd (close_ticket_manually n' notes w)).
Proof.
  intros H. apply string_eqb_true in H.
  assert (truthy (strip n) = truthy (strip n')) as Hb.
  { by rewrite <- (truthy_upper (strip n)), <- (truthy_upper (strip n')), H. }
  assert (∀ u, same_number (ticket_no u) n = same_number (ticket_no u) n') as Hm.
  { intros u. unfold same_number. by rewrite H. }
  unfold close_ticket_manually. rewrite Hb.
  destruct (truthy (strip n')); simpl; [| reflexivity].
  destruct (truthy (strip notes)); simpl; [| reflexivity].
  unfold mbind at 1 3, M_bind at 1 3, load_tickets.
  destruct (close_loop_same_store n n' notes [] (default [] (tickets_file w)) w Hm)
    as (Hf & Ht).
  unfold mbind, M_bind.
  destruct (close_loop n notes [] _ w) as [[f|] wa],
           (close_loop n' notes [] _ w) as [[f'|] wb];
    simpl in *; try discriminate; unfold stored.
  - injection Hf as <-. destruct f; simpl; by rewrite Ht.
  - by rewrite Ht.
Qed.

Lemma no_variant_none_matches (n : string) (ts : list ticket) :
  no_variant_among n ts → none_matches n ts.
Proof.
  intros H. eapply Forall_impl; [exact H |]. intros u Hu. simpl in Hu.
  destruct (same_number (ticket_no u) n) eqn:E; [| reflexivity].
  by apply same_number_spec in E.
Qed.

(** C10: the handler locates the ticket up to letter case and surrounding
    white space, and up to nothing else: its test holds of two numbers
    exactly when they differ in these respects only.  So when the entered
    number differs in this way from the number of a stored ticket and from
    that of no earlier ticket, and the inputs are not blank, this ticket is
    the one selected: in [need review] it is closed, the memory entry
    recording the number as it was entered, and otherwise the state failure
    is reported for it; in each case the store ends as it does when the
    stored number itself is entered. *)
Theorem manual_closure_modulo_case_and_padding (w : world) (n notes : string)
    (pre : list ticket) (t : ticket) (post : list ticket) :
  differ_only_in_case_and_padding (ticket_no t) n →
  stored w = (pre ++ t :: post)%list →
  no_variant_among n pre →
  strip n ≠ "" → strip notes ≠ "" →
  (∀ stored_no entered,
     same_number stored_no entered = true
     ↔ differ_only_in_case_and_padding stored_no entered)
  ∧ close_ticket_manually n notes w
    = (if String.eqb (status t) "need review"
       then (Ok tt, closed_world w n notes pre t post)
       else (Ok tt, with_log w (log w ++ [Display (Error not_in_review);
                                          Display (Error not_found)])%list))
  ∧ stored (closed_world w n notes pre t post)
    = (pre ++ close_ticket notes t :: post)%list
  ∧ status (close_ticket notes t) = "closed"
  ∧ human_resolution (close_ticket notes t) = Some notes
  ∧ remembered (closed_world w n notes pre t post)
    = (remembered w ++ [MemoryEntry n notes true])%list
  ∧ stored (snd (close_ticket_manually n notes w))
    = stored (snd (close_ticket_manually (ticket_no t) notes w)).
Proof.
  intros Hd Hst Hpre Hn Hnotes.
  pose proof (proj2 (same_number_spec _ _) Hd) as Ht.
  apply no_variant_none_matches in Hpre.
  split; [apply same_number_spec |]. split.
  - destruct (String.eqb (status t) "need review") eqn:Hs.
    + apply String.eqb_eq in Hs. by apply manual_closure_accepts.
    + apply String.eqb_neq in Hs. by eapply manual_closure_wrong_state.
  - repeat split. by apply manual_closure_same_store.
Qed.

End Closure.

(** * Further properties *)

(** ** Ticket numbering *)

Lemma free_of_app (c : ascii) (a b : string) :
  free_of c (a ++ b) = free_of c a && free_of c b.
Proof.
  induction a as [|x a IH]; [reflexivity |].
  rewrite append_cons. simpl. by rewrite IH, andb_assoc.
Qed.

Lemma split_on_free (sep : ascii) (s : string) :
  free_of sep s = true → split_on sep s = [s].
Proof.
  induction s as [|c s IH]; [reflexivity |]. simpl. intros H.
  apply andb_true_iff in H as [Hc Hs]. apply negb_true_iff in Hc.
  by rewrite Hc, IH.
Qed.

Lemma split_on_app (sep : ascii) (a b : string) :
  free_of sep a = true →
  split_on sep (a ++ String sep b) = a :: split_on sep b.
Proof.
  induction a as [|c a IH]; intros H.
  - rewrite append_nil_l. simpl. by rewrite Ascii.eqb_refl.
  - simpl in H. apply andb_true_iff in H as [Hc Ha]. apply negb_true_iff in Hc.
    rewrite append_cons. simpl. by rewrite Hc, IH.
Qed.

Lemma split_on_pieces_free (sep : ascii) (s : string) :
  Forall (λ piece, free_of sep piece = true) (split_on sep s).
Proof.
  induction s as [|c s IH]; simpl.
  - by apply Forall_cons.
  - destruct (Ascii.eqb c sep) eqn:E; [by apply Forall_cons |].
    destruct (split_on sep s) as [|p ps]; [by apply Forall_cons; simpl; rewrite E |].
    apply Forall_cons in IH as [Hp Hps]. apply Forall_cons. simpl.
    by rewrite E, Hp.
Qed.

Lemma all_digits_app (a b : string) :
  all_digits (a ++ b) = all_digits a && all_digits b.
Proof.
  induction a as [|x a IH]; [reflexivity |].
  rewrite append_cons. simpl. by rewrite IH, andb_assoc.
Qed.

Lemma digit_facts (c : ascii) :
  in_range 48 57 (code c) = true →
  is_int_space c = false ∧ Ascii.eqb c "-" = false ∧ Ascii.eqb c "+" = false
  ∧ digit_value c = Some (Z.of_N (code c) - 48)%Z.
Proof. destruct c as [[] [] [] [] [] [] [] []]; simpl; try discriminate; auto. Qed.

Lemma all_digits_free (c : ascii) (s : string) :
  in_range 48 57 (code c) = false → all_digits s = true → free_of c s = true.
Proof.
  intros Hc. induction s as [|a s IH]; [reflexivity |]. simpl. intros H.
  apply andb_true_iff in H as [Ha Hs]. rewrite IH by done.
  destruct (Ascii.eqb a c) eqn:E; [| reflexivity].
  apply Ascii.eqb_eq in E as ->. congruence.
Qed.

Lemma all_digits_skip_left (s : string) :
  all_digits s = true → skip_left s = s.
Proof.
  destruct s as [|c s]; [reflexivity |]. simpl. intros H.
  apply andb_true_iff in H as [Hc _].
  by destruct (digit_facts c Hc) as (-> & _).
Qed.

Lemma all_digits_skip_right (s : string) :
  all_digits s = true → skip_right s = s.
Proof.
  induction s as [|c s IH]; [reflexivity |]. simpl. intros H.
  apply andb_true_iff in H as [Hc Hs]. rewrite IH by done.
  destruct (digit_facts c Hc) as (-> & _). by destruct s.
Qed.

Lemma all_digits_skip (s : string) :
  all_digits s = true → skip_right (skip_left s) = s.
Proof.
  intros H. by rewrite all_digits_skip_left, all_digits_skip_right.
Qed.

(** Reading the digits printed for a decimal number gives the number. *)
Lemma parse_digits_acc (d : Decimal.uint) (p : positive) :
  parse_digits (Z.pos p) true (NilEmpty.string_of_uint d)
  = Some (Z.pos (Pos.of_uint_acc d p)).
Proof.
  revert p. induction d; intros p; simpl; [reflexivity | ..];
    rewrite <- IHd; f_equal; lia.
Qed.

Lemma parse_digits_uint (d : Decimal.uint) (b : bool) :
  d ≠ Decimal.Nil →
  parse_digits 0 b (NilEmpty.string_of_uint d) = Some (Z.of_N (Pos.of_uint d)).
Proof.
  revert b. induction d; intros b Hd; [done | ..].
  2-10: first
    [ exact (parse_digits_acc d 1) | exact (parse_digits_acc d 2)
    | exact (parse_digits_acc d 3) | exact (parse_digits_acc d 4)
    | exact (parse_digits_acc d 5) | exact (parse_digits_acc d 6)
    | exact (parse_digits_acc d 7) | exact (parse_digits_acc d 8)
    | exact (parse_digits_acc d 9) ].
  change (parse_digits 0 true (NilEmpty.string_of_uint d)
          = Some (Z.of_N (Pos.of_uint d))).
  destruct d; [reflexivity | ..]; by apply IHd.
Qed.

Lemma string_of_uint_digits (d : Decimal.uint) :
  all_digits (NilEmpty.string_of_uint d) = true.
Proof. induction d; simpl; auto. Qed.

Lemma to_uint_nonnil (n : N) : N.to_uint n ≠ Decimal.Nil.
Proof. destruct n; [discriminate | apply DecimalPos.Unsigned.to_uint_nonnil]. Qed.

Lemma zeros_digits (k : nat) (s : string) :
  all_digits (zeros k s) = all_digits s.
Proof. induction k as [|k IH]; [reflexivity | exact IH]. Qed.

Lemma parse_zeros (k : nat) (b : bool) (s : string) (v : Z) :
  (∀ b', parse_digits 0 b' s = Some v) → parse_digits 0 b (zeros k s) = Some v.
Proof.
  intros H. revert b. induction k as [|k IH]; intros b; [apply H |].
  exact (IH true).
Qed.

Lemma py_int_digits (s : string) :
  all_digits s = true → py_int s = parse_digits 0 false s.
Proof.
  intros H. unfold py_int. rewrite all_digits_skip by done.
  destruct s as [|c s]; [reflexivity |]. simpl in H.
  apply andb_true_iff in H as [Hc _].
  destruct c as [[] [] [] [] [] [] [] []]; try discriminate Hc; reflexivity.
Qed.

(** Round trip: [int] reads back the number the format printed. *)
Lemma py_int_zero_fill (w : nat) (n : N) :
  py_int (zero_fill w (digits_of n)) = Some (Z.of_N n).
Proof.
  unfold zero_fill, digits_of.
  rewrite py_int_digits by (rewrite zeros_digits; apply string_of_uint_digits).
  apply parse_zeros. intros b.
  rewrite parse_digits_uint by apply to_uint_nonnil.
  change (Pos.of_uint (N.to_uint n)) with (N.of_uint (N.to_uint n)).
  by rewrite DecimalN.Unsigned.of_to.
Qed.

Lemma format_04d_digits (n : Z) : (0 ≤ n)%Z → all_digits (format_04d n) = true.
Proof.
  intros H. unfold format_04d. rewrite (proj2 (Z.ltb_ge n 0)) by done.
  unfold zero_fill, digits_of. rewrite zeros_digits. apply string_of_uint_digits.
Qed.

Lemma py_int_format_04d (n : Z) : (0 ≤ n)%Z → py_int (format_04d n) = Some n.
Proof.
  intros H. unfold format_04d. rewrite (proj2 (Z.ltb_ge n 0)) by done.
  rewrite py_int_zero_fill. f_equal. lia.
Qed.

(** The number after a stored number in the canonical form. *)
Lemma next_after_canonical (ts : list ticket) (t : ticket) (n : Z) :
  last ts = Some t → ticket_no t = "TICKET-" ++ format_04d n → (0 ≤ n)%Z →
  get_next_ticket_no ts = Some ("TICKET-" ++ format_04d (n + 1)).
Proof.
  intros Hl Hno Hn. unfold get_next_ticket_no. rewrite Hl. cbv zeta. rewrite Hno.
  change ("TICKET-" ++ format_04d n) with ("TICKET" ++ String "-" (format_04d n)).
  rewrite split_on_app by reflexivity.
  rewrite split_on_free
    by (apply all_digits_free; [reflexivity | by apply format_04d_digits]).
  simpl. by rewrite py_int_format_04d.
Qed.

Lemma digit_value_nonneg (c : ascii) (d : Z) :
  digit_value c = Some d → (0 ≤ d)%Z.
Proof.
  unfold digit_value, in_range.
  destruct ((48 <=? code c)%N && (code c <=? 57)%N) eqn:E; [| discriminate].
  apply andb_true_iff in E as [E _]. apply N.leb_le in E.
  intros [= <-]. lia.
Qed.

Lemma parse_digits_nonneg (acc : Z) (b : bool) (s : string) (v : Z) :
  (0 ≤ acc)%Z → parse_digits acc b s = Some v → (0 ≤ v)%Z.
Proof.
  revert acc b. induction s as [|c s IH]; intros acc b Hacc; simpl.
  - destruct b; [intros [= <-]; done | discriminate].
  - destruct (digit_value c) as [d|] eqn:Hd.
    + apply digit_value_nonneg in Hd. apply IH. lia.
    + destruct (Ascii.eqb c "_" && b); [by apply IH | discriminate].
Qed.

Lemma skip_left_split (s : string) : ∃ l, s = l ++ skip_left s.
Proof.
  induction s as [|c s (l & E)]; [by exists "" |]. simpl.
  destruct (is_int_space c); [| by exists ""].
  exists (String c l). by rewrite append_cons, <- E.
Qed.

Lemma skip_right_split (s : string) : ∃ r, s = skip_right s ++ r.
Proof.
  induction s as [|c s (r & E)]; [by exists "" |]. simpl.
  destruct (skip_right s) as [|x y] eqn:Hr.
  - rewrite append_nil_l in E. subst r. destruct (is_int_space c).
    + by exists (String c s).
    + exists s. by rewrite append_cons, append_nil_l.
  - exists r. by rewrite append_cons, <- E.
Qed.

Lemma skip_free_of (c : ascii) (s : string) :
  free_of c s = true → free_of c (skip_right (skip_left s)) = true.
Proof.
  destruct (skip_left_split s) as (l & El).
  destruct (skip_right_split (skip_left s)) as (r & Er). intros H.
  rewrite El, Er, !free_of_app in H.
  apply andb_true_iff in H as [_ H]. by apply andb_true_iff in H as [H _].
Qed.

Lemma py_int_nonneg (s : string) (v : Z) :
  free_of "-" s = true → py_int s = Some v → (0 ≤ v)%Z.
Proof.
  intros H. apply skip_free_of in H. unfold py_int.
  destruct (skip_right (skip_left s)) as [|c r].
  - simpl. discriminate.
  - simpl in H. apply andb_true_iff in H as [Hc _].
    destruct c as [[] [] [] [] [] [] [] []]; try discriminate Hc;
      by apply parse_digits_nonneg.
Qed.

(** Whatever the last number looked like, a number that is assigned is in
    the canonical form and at least 1. *)
Lemma next_is_canonical (ts : list ticket) (s : string) :
  get_next_ticket_no ts = Some s →
  ∃ n : Z, (1 ≤ n)%Z ∧ s = "TICKET-" ++ format_04d n.
Proof.
  unfold get_next_ticket_no. destruct (last ts) as [t|].
  - cbv zeta. destruct (split_on "-" (ticket_no t) !! 1%nat) as [piece|] eqn:Hp;
      [| discriminate].
    destruct (py_int piece) as [number|] eqn:Hn; [| discriminate].
    intros [= <-]. exists (number + 1)%Z. split; [| reflexivity].
    pose proof (split_on_pieces_free "-" (ticket_no t)) as Hf.
    eapply Forall_lookup_1 in Hf; [| exact Hp].
    apply (py_int_nonneg _ _ Hf) in Hn. lia.
  - intros [= <-]. exists 1%Z. split; [lia | reflexivity].
Qed.

Lemma append_inv_head (p a b : string) : p ++ a = p ++ b → a = b.
Proof.
  induction p as [|c p IH]; [by rewrite !append_nil_l |].
  rewrite !append_cons. intros [= H]. auto.
Qed.

Lemma canonical_number_inj (i j : nat) :
  canonical_number i = canonical_number j → i = j.
Proof.
  unfold canonical_number. intros H. apply append_inv_head in H.
  apply (f_equal py_int) in H. rewrite !py_int_format_04d in H by lia.
  injection H as H. lia.
Qed.

Lemma canonical_numbers_snoc (k : nat) :
  canonical_numbers (S k) = (canonical_numbers k ++ [canonical_number (S k)])%list.
Proof. unfold canonical_numbers. by rewrite seq_S, fmap_app. Qed.

Lemma next_after_canonical_numbers (ts : list ticket) (k : nat) :
  ticket_no <$> ts = canonical_numbers k →
  get_next_ticket_no ts = Some (canonical_number (S k)).
Proof.
  intros H. destruct k as [|k].
  - destruct ts; [reflexivity | discriminate].
  - assert (ticket_no <$> last ts = Some (canonical_number (S k))) as Hl.
    { rewrite <- fmap_last, H, canonical_numbers_snoc. apply last_snoc. }
    destruct (last ts) as [t|] eqn:Ht; [| discriminate].
    injection Hl as Hl. unfold canonical_number in *.
    rewrite (next_after_canonical ts t (Z.of_nat (S k))) by (done || lia).
    do 3 f_equal. lia.
Qed.

(** X1: once a number has been assigned, the ticket that carries it leads to
    the next integer in the same form, whatever precedes it in the store;
    the two numbers differ. *)
Theorem numbering_continues (ts ts' : list ticket) (t' : ticket) (s : string) :
  get_next_ticket_no ts = Some s → ticket_no t' = s →
  ∃ n : Z, (1 ≤ n)%Z ∧ s = "TICKET-" ++ format_04d n
    ∧ get_next_ticket_no (ts' ++ [t']) = Some ("TICKET-" ++ format_04d (n + 1))
    ∧ "TICKET-" ++ format_04d (n + 1) ≠ s.
Proof.
  intros H Ht. destruct (next_is_canonical ts s H) as (n & Hn & ->).
  exists n. split; [done |]. split; [done |]. split.
  - apply (next_after_canonical _ t'); [apply last_snoc | done | lia].
  - intros E. apply append_inv_head in E. apply (f_equal py_int) in E.
    rewrite !py_int_format_04d in E by lia. injection E as E. lia.
Qed.

(** X2: with the stored numbers [TICKET-0001] to the [k]-th in this order,
    the next number is the [k+1]-th, also beyond four digits; these numbers
    are pairwise distinct. *)
Theorem get_next_ticket_no_canonical (ts : list ticket) (k : nat) :
  ticket_no <$> ts = canonical_numbers k →
  get_next_ticket_no ts = Some (canonical_number (S k))
  ∧ NoDup (canonical_numbers (S k)).
Proof.
  intros H. split; [by apply next_after_canonical_numbers |].
  unfold canonical_numbers. apply NoDup_fmap_2.
  - intros i j. apply canonical_number_inj.
  - apply NoDup_seq.
Qed.

(** X3: a last ticket whose number has no hyphen makes the numbering
    raise. *)
Theorem get_next_ticket_no_no_hyphen (ts : list ticket) (t : ticket) :
  last ts = Some t → free_of "-" (ticket_no t) = true →
  get_next_ticket_no ts = None.
Proof.
  intros Hl Hf. unfold get_next_ticket_no. rewrite Hl. cbv zeta.
  by rewrite split_on_free.
Qed.

(** ** More on automatic processing, and ticket creation *)

Section Creation.
Context {llm : Type}.
Variable chat : request -> llm -> option string * llm.
Variable json_loads : string -> option (gmap string string).

Abbreviation world := (@world llm).

Lemma process_loop_identity ts changed (w : world) ts' changed' w' :
  process_loop chat json_loads ts changed w = (Ok (ts', changed'), w') →
  Forall2 same_identity ts ts'.
Proof.
  revert changed w ts' changed' w'.
  induction ts as [|t rest IH]; intros changed w ts' changed' w'.
  - intros [= <- <- <-]. constructor.
  - cbn [process_loop]. destruct (String.eqb (status t) "open"); intros H.
    + apply bind_ok in H as (t1 & w1 & Ht & H).
      apply bind_ok in H as ([rest' c'] & w2 & Hr & [= <- <- <-]).
      apply process_open_ticket_ok in Ht as (a & _ & ->).
      constructor; [by repeat split | by eapply IH].
    + apply bind_ok in H as ([rest' c'] & w2 & Hr & [= <- <- <-]).
      constructor; [by repeat split | by eapply IH].
Qed.

Lemma same_identity_refl : ∀ ts, Forall2 same_identity ts ts.
Proof. induction ts; constructor; [by repeat split | done]. Qed.

(** A completed loop entered with the flag down and leaving it down changed
    no ticket. *)
Lemma process_loop_unchanged ts (w : world) ts' w' :
  process_loop chat json_loads ts false w = (Ok (ts', false), w') → ts' = ts.
Proof.
  intros H. apply process_loop_ok in H as (L & C & _ & N & _).
  simpl in C. symmetry in C. apply any_open_false in C.
  apply list_eq. intros i. destruct (ts !! i) as [t|] eqn:Hi.
  - apply (N i t Hi). eapply Forall_lookup_1 in C; eauto.
  - apply lookup_ge_None. apply lookup_ge_None in Hi. lia.
Qed.

(** The pass in terms of its loop. *)
Lemma auto_process_ok (w w' : world) :
  auto_process_open_tickets chat json_loads w = (Ok tt, w') →
  ∃ changed w1,
    process_loop chat json_loads (stored w) false w
      = (Ok (stored w', changed), w1)
    ∧ memory_file w' = memory_file w
    ∧ (log w' = log w1 ∨ log w' = (log w1 ++ [SaveTickets])%list).
Proof.
  intros H. rewrite auto_process_unfold in H.
  destruct (process_loop chat json_loads (stored w) false w)
    as [[[ts' changed]|] w1] eqn:Hloop; [| discriminate].
  pose proof (process_loop_inv _ _ _ _ _ _ _ Hloop) as (T & Mm & _).
  destruct changed.
  - unfold save_tickets in H. injection H as <-. exists true, w1.
    split; [reflexivity |]. split; [exact Mm |]. right. reflexivity.
  - injection H as <-. exists false, w1.
    rewrite (process_loop_unchanged _ _ _ _ Hloop).
    assert (stored w1 = stored w) as -> by (unfold stored; by rewrite T).
    auto.
Qed.

Lemma auto_process_raised (w w' : world) :
  auto_process_open_tickets chat json_loads w = (Raised, w') →
  tickets_file w' = tickets_file w ∧ memory_file w' = memory_file w.
Proof.
  intros H. rewrite auto_process_unfold in H.
  destruct (process_loop chat json_loads (stored w) false w)
    as [[[ts' changed]|] w1] eqn:Hloop.
  - destruct changed; discriminate.
  - injection H as <-.
    by pose proof (process_loop_inv _ _ _ _ _ _ _ Hloop) as (T & Mm & _).
Qed.

(** X4: a completed automatic pass leaves no ticket open. *)
Theorem auto_pass_leaves_none_open (w w' : world) :
  auto_process_open_tickets chat json_loads w = (Ok tt, w') →
  Forall (λ t, ¬ is_open t) (stored w').
Proof.
  intros H. apply auto_process_ok in H as (changed & w1 & H & _).
  by apply process_loop_ok in H as (_ & _ & F & _).
Qed.

(** X5: whatever its outcome, the automatic pass keeps the number, the
    description and the human resolution of every ticket, in the same
    order. *)
Theorem auto_pass_keeps_identity (w w' : world) (o : outcome unit) :
  auto_process_open_tickets chat json_loads w = (o, w') →
  Forall2 same_identity (stored w) (stored w').
Proof.
  destruct o as [[]|]; intros H.
  - apply auto_process_ok in H as (changed & w1 & H & _).
    by eapply process_loop_identity.
  - apply auto_process_raised in H as (T & _). unfold stored. rewrite T.
    apply same_identity_refl.
Qed.

(** X6: when the model raises during a pass, neither file is written: the
    tickets analysed before the failure stay open on file; and a pass can
    only fail when some ticket is open. *)
Theorem auto_pass_failure_writes_nothing (w w' : world) :
  auto_process_open_tickets chat json_loads w = (Raised, w') →
  tickets_file w' = tickets_file w ∧ memory_file w' = memory_file w
  ∧ any_open (stored w) = true.
Proof.
  intros H. destruct (auto_process_raised _ _ H) as (T & Mm).
  split; [done |]. split; [done |].
  destruct (any_open (stored w)) eqn:E; [done |].
  apply any_open_false in E. rewrite auto_process_unfold in H.
  by rewrite process_loop_no_open in H.
Qed.

(** X7: over a store without open ticket the pass does nothing at all: no
    call of the model, no file written or created. *)
Theorem auto_pass_without_open_ticket (w : world) :
  Forall (λ t, ¬ is_open t) (stored w) →
  auto_process_open_tickets chat json_loads w = (Ok tt, w).
Proof.
  intros H. by rewrite auto_process_unfold, process_loop_no_open.
Qed.

(** X8: a reply of the model that cannot be decoded sends an open ticket to
    [need review] with the three fields [unknown], confidence 40 and no
    proposed fix, after the single call that asked for the extraction. *)
Theorem undecodable_reply_needs_review (t : ticket) (w : world)
    (content : string) (m : llm) :
  chat (ExtractionPrompt (description t)) (model w) = (Some content, m) →
  json_loads
    (Slice.slice content (Slice.find "{"%char content)
       (Slice.rfind "}"%char content + 1)%Z) = None →
  process_open_ticket chat json_loads t w
  = (Ok (set_status "need review" (set_ai_analysis unknown_analysis t)),
     World (tickets_file w) (memory_file w) m
       (log w ++ [Chat (ExtractionPrompt (description t))])%list).
Proof.
  intros Hc Hj.
  unfold process_open_ticket, analyze_ticket, mbind, M_bind, ollama_chat.
  rewrite Hc. unfold parse_extraction. rewrite Hj. reflexivity.
Qed.

Lemma create_ticket_unfold (user_input : string) (w : world) :
  strip user_input ≠ "" →
  create_ticket chat json_loads user_input w =
    match get_next_ticket_no (stored w) with
    | None => (Raised, w)
    | Some new_no =>
        let saved :=
          World
            (Some (stored w ++ [Ticket new_no user_input "open" None None])%list)
            (memory_file w) (model w) (log w ++ [SaveTickets])%list in
        match auto_process_open_tickets chat json_loads saved with
        | (Ok _, w2) =>
            (Ok tt,
             with_log w2
               (log w2 ++ [Display (Success ("Ticket " ++ new_no
                                             ++ " created and processed!"))])%list)
        | (Raised, w2) => (Raised, w2)
        end
    end.
Proof.
  intros H. unfold create_ticket. rewrite (strip_truthy _ H).
  unfold mbind at 1, M_bind at 1, load_tickets. fold (stored w).
  destruct (get_next_ticket_no (stored w)) as [no|]; [| reflexivity].
  unfold mbind, M_bind, mret, M_ret, save_tickets. cbv zeta.
  destruct (auto_process_open_tickets chat json_loads _) as [[[]|] w2];
    reflexivity.
Qed.

(** X9: a ticket creation that completes appends one ticket with the next
    number and the description as entered, keeps the identity of the others,
    leaves no ticket open, and ends with the success message. *)
Theorem create_ticket_completed (user_input : string) (w w' : world) :
  strip user_input ≠ "" →
  create_ticket chat json_loads user_input w = (Ok tt, w') →
  ∃ (new_no : string) (olds : list ticket) (new : ticket),
    get_next_ticket_no (stored w) = Some new_no
    ∧ stored w' = (olds ++ [new])%list
    ∧ Forall2 same_identity (stored w) olds
    ∧ ticket_no new = new_no ∧ description new = user_input
    ∧ human_resolution new = None
    ∧ Forall (λ t, ¬ is_open t) (stored w')
    ∧ last (log w')
      = Some (Display (Success ("Ticket " ++ new_no
                                ++ " created and processed!"))).
Proof.
  intros Hin H. rewrite create_ticket_unfold in H by done.
  destruct (get_next_ticket_no (stored w)) as [no|]; [| discriminate].
  cbv zeta in H.
  destruct (auto_process_open_tickets chat json_loads _) as [[[]|] w2] eqn:Ha;
    [| discriminate].
  injection H as <-.
  apply auto_process_ok in Ha as (changed & w1 & Hl & _).
  pose proof (process_loop_identity _ _ _ _ _ _ Hl) as Hid.
  apply process_loop_ok in Hl as (_ & _ & F & _).
  unfold stored at 1 in Hid. simpl in Hid.
  apply Forall2_app_inv_l in Hid as (olds & news & Ho & Hn & E).
  apply Forall2_cons_inv_l in Hn as (new & rest & (I1 & I2 & I3) & Hr & ->).
  apply Forall2_nil_inv_l in Hr as ->.
  exists no, olds, new. split; [done |].
  change (stored (with_log w2 _)) with (stored w2).
  split; [exact E |]. split; [exact Ho |].
  split; [exact I1 |]. split; [exact I2 |]. split; [exact I3 |].
  split; [exact F |]. simpl. apply last_snoc.
Qed.

(** X10: when a ticket creation raises, either the next number could not be
    computed and nothing happened, or the new ticket is on file, open,
    after the tickets as they were. *)
Theorem create_ticket_raised (user_input : string) (w w' : world) :
  strip user_input ≠ "" →
  create_ticket chat json_loads user_input w = (Raised, w') →
  (get_next_ticket_no (stored w) = None ∧ w' = w)
  ∨ (∃ new_no,
       get_next_ticket_no (stored w) = Some new_no
       ∧ tickets_file w'
         = Some (stored w
                 ++ [Ticket new_no user_input "open" None None])%list
       ∧ memory_file w' = memory_file w).
Proof.
  intros Hin H. rewrite create_ticket_unfold in H by done.
  destruct (get_next_ticket_no (stored w)) as [no|].
  - right. exists no. split; [done |]. cbv zeta in H.
    destruct (auto_process_open_tickets chat json_loads _) as [[[]|] w2] eqn:Ha;
      [discriminate |].
    injection H as <-. by apply auto_process_raised in Ha as (-> & ->).
  - left. by injection H as <-.
Qed.

(** A blank description is refused with one error message, before the
    store is read or the model called. *)
Lemma create_ticket_blank (user_input : string) (w : world) :
  strip user_input = "" →
  create_ticket chat json_loads user_input w
  = (Ok tt,
     with_log w
       (log w ++ [Display (Error "Please enter a ticket description.")])%list).
Proof. intros H. unfold create_ticket. by rewrite H. Qed.

(** X11: ticket creation keeps the numbering consecutive: from a store
    numbered [TICKET-0001] to the [k]-th, a completed creation leaves the
    store numbered up to the [k+1]-th. *)
Theorem create_ticket_numbers (user_input : string) (w w' : world) (k : nat) :
  ticket_no <$> stored w = canonical_numbers k →
  strip user_input ≠ "" →
  create_ticket chat json_loads user_input w = (Ok tt, w') →
  ticket_no <$> stored w' = canonical_numbers (S k).
Proof.
  intros Hk Hin H. rewrite create_ticket_unfold in H by done.
  rewrite (next_after_canonical_numbers _ _ Hk) in H. cbv zeta in H.
  destruct (auto_process_open_tickets chat json_loads _) as [[[]|] w2] eqn:Ha;
    [| discriminate].
  injection H as <-. change (stored (with_log w2 _)) with (stored w2).
  apply auto_process_ok in Ha as (changed & w1 & Hl & _).
  apply process_loop_identity in Hl. unfold stored at 1 in Hl. simpl in Hl.
  assert (ticket_no <$> stored w2
          = ticket_no <$> (stored w
                ++ [Ticket (canonical_number (S k)) user_input "open" None None])%list)
    as ->.
  { clear -Hl. induction Hl as [|t t' ts ts' (E & _) _ IH]; [done |].
    rewrite !fmap_cons. by rewrite E, IH. }
  by rewrite fmap_app, Hk, canonical_numbers_snoc.
Qed.

End Creation.

(** ** More on the confidence *)

Ltac confidence_value :=
  match goal with
  | |- context [py_round ?x] =>
      let v := eval vm_compute in (py_round x) in
      replace (py_round x) with v by (vm_compute; reflexivity)
  end.

(** X12: the confidence reaches the threshold of 85 exactly when issue type
    and affected system are not redundant, no field is unsupported and at
    most one is inferred. *)
Theorem auto_close_criterion
    (issue_type severity affected_system description : string) :
  (85 ≤ compute_confidence issue_type severity affected_system description)%Z
  ↔ redundant issue_type affected_system = false
    ∧ well_supported (grade issue_type description)
        (grade severity description)
        (grade affected_system description) = true.
Proof.
  rewrite compute_confidence_grade.
  destruct (grade issue_type description), (grade severity description),
    (grade affected_system description),
    (redundant issue_type affected_system);
    confidence_value; simpl; split;
    solve [ intros; lia | intros; split; reflexivity
          | intros [? ?]; discriminate ].
Qed.

(** X13: the confidence takes one of eleven values. *)
Theorem compute_confidence_values
    (issue_type severity affected_system description : string) :
  In (compute_confidence issue_type severity affected_system description)
    confidence_values.
Proof.
  rewrite compute_confidence_grade.
  destruct (grade issue_type description), (grade severity description),
    (grade affected_system description),
    (redundant issue_type affected_system);
    confidence_value; simpl; tauto.
Qed.

(** X14: better support never lowers the confidence: with the same
    redundancy, grades that are field by field at least as good give a
    confidence at least as high. *)
Theorem compute_confidence_monotone
    (it sv sys d it' sv' sys' d' : string) :
  redundant it sys = redundant it' sys' →
  grade_le (grade it d) (grade it' d') = true →
  grade_le (grade sv d) (grade sv' d') = true →
  grade_le (grade sys d) (grade sys' d') = true →
  (compute_confidence it sv sys d ≤ compute_confidence it' sv' sys' d')%Z.
Proof.
  rewrite !compute_confidence_grade. intros <-.
  destruct (grade it d), (grade it' d'); try discriminate; intros _;
    destruct (grade sv d), (grade sv' d'); try discriminate; intros _;
    destruct (grade sys d), (grade sys' d'); try discriminate; intros _;
    destruct (redundant it sys); vm_compute; discriminate.
Qed.

(** ** More on the search filter *)

Lemma filter_tickets_filter (ts : list ticket) (st sv : string) :
  filter_tickets ts st sv = filter (facets_match st sv) ts.
Proof. unfold filter_tickets. by rewrite filter_loop_spec. Qed.

(** X15: the two facets apply independently: filtering by status and then
    by severity, or the other way round, is filtering by both. *)
Theorem filter_tickets_facets_compose (ts : list ticket) (st sv : string) :
  filter_tickets (filter_tickets ts st "none") "none" sv = filter_tickets ts st sv
  ∧ filter_tickets (filter_tickets ts "none" sv) st "none"
    = filter_tickets ts st sv.
Proof.
  rewrite !filter_tickets_filter, !list_filter_filter.
  split; apply list_filter_iff; intros t; unfold facets_match; tauto.
Qed.

(** X16: filtering a result again by the same facets changes nothing. *)
Theorem filter_tickets_idempotent (ts : list ticket) (st sv : string) :
  filter_tickets (filter_tickets ts st sv) st sv = filter_tickets ts st sv.
Proof.
  rewrite !filter_tickets_filter, list_filter_filter.
  apply list_filter_iff. intros t. tauto.
Qed.

(** ** Search results: labels, selection, undecodable filters *)

Lemma selected_by_number (number : string) (pre : list ticket) (t : ticket)
    (post : list ticket) :
  Forall (λ u, ticket_no u ≠ number) pre → ticket_no t = number →
  List.find (λ u, String.eqb (ticket_no u) number) (pre ++ t :: post) = Some t.
Proof.
  intros H Ht. induction H as [|u pre Hu _ IH]; simpl.
  - by rewrite (proj2 (String.eqb_eq _ _) Ht).
  - by rewrite (proj2 (String.eqb_neq _ _) Hu).
Qed.

Lemma selected_none (number : string) (results : list ticket) :
  Forall (λ u, ticket_no u ≠ number) results →
  List.find (λ u, String.eqb (ticket_no u) number) results = None.
Proof.
  induction 1 as [|u rest Hu _ IH]; [reflexivity |]. simpl.
  by rewrite (proj2 (String.eqb_neq _ _) Hu).
Qed.

(** X17: the label of a result leads back to its ticket: when the number
    has no colon and no earlier result carries it, the ticket selected
    through the label is that ticket. *)
Theorem selected_ticket_of_label (pre : list ticket) (t : ticket)
    (post : list ticket) :
  free_of ":" (ticket_no t) = true →
  Forall (λ u, ticket_no u ≠ ticket_no t) pre →
  selected_ticket (pre ++ t :: post) (result_label t) = Some t.
Proof.
  intros Hf Hpre. unfold selected_ticket, result_label.
  change (ticket_no t ++ ": " ++ ?x) with (ticket_no t ++ String ":" (" " ++ x)).
  rewrite split_on_app by done. by apply selected_by_number.
Qed.

(** X18: a number with a colon is cut at its first colon: when no result
    carries the part before it, selecting through the label of the ticket
    finds nothing, which in the source ends the run with [StopIteration]. *)
Theorem selected_ticket_colon (results : list ticket) (t : ticket)
    (a b : string) :
  ticket_no t = a ++ String ":" b → free_of ":" a = true →
  Forall (λ u, ticket_no u ≠ a) results →
  selected_ticket results (result_label t) = None.
Proof.
  intros Hno Hf Hres. unfold selected_ticket, result_label.
  rewrite Hno, append_assoc, append_cons, split_on_app by done.
  by apply selected_none.
Qed.

(** ** The text handed to the decoder *)



Lemma rfind_from_free (c : ascii) (s : string) (i : Z) :
  free_of c s = true → Slice.rfind_from c s i = (-1)%Z.
Proof.
  revert i. induction s as [|x s IH]; intros i H; [reflexivity |].
  simpl in H. apply andb_true_iff in H as [Hx Hs]. apply negb_true_iff in Hx.
  simpl. by rewrite IH, Hx.
Qed.






Lemma slice_stop_zero (s : string) (start : Z) : Slice.slice s start 0 = "".
Proof.
  unfold Slice.slice, Slice.clip. change (0 <? 0)%Z with false. cbv iota.
  destruct (Z.ltb_spec start 0);
    match goal with
    | |- (if (?a <? ?b)%Z then _ else _) = _ =>
        destruct (Z.ltb_spec a b); [lia | reflexivity]
    end.
Qed.

Lemma cut_without_closing_brace (content : string) :
  free_of "}" content = true →
  Slice.slice content (Slice.find "{"%char content)
    (Slice.rfind "}"%char content + 1)%Z = "".
Proof.
  intros H. unfold Slice.rfind. rewrite rfind_from_free by done.
  apply slice_stop_zero.
Qed.

Section Decoding.
Variable json_loads : string -> option (gmap string string).


(** X20: a reply without closing brace is decoded as the empty text. *)
Theorem no_closing_brace (content : string) :
  free_of "}" content = true →
  parse_extraction json_loads content = parse_extraction json_loads ""
  ∧ parse_search_reply json_loads content = parse_search_reply json_loads "".
Proof.
  intros H. unfold parse_extraction, parse_search_reply.
  by rewrite (cut_without_closing_brace content H).
Qed.

(** X21: when the reply to a search query cannot be decoded, the search
    returns every ticket, in the order of the store. *)
Theorem undecodable_filters_return_all (text : string) (tickets : list ticket) :
  json_loads
    (Slice.slice text (Slice.find "{"%char text)
       (Slice.rfind "}"%char text + 1)%Z) = None →
  search_results (parse_search_reply json_loads text) tickets = Some tickets.
Proof.
  intros H. unfold parse_search_reply. rewrite H.
  unfold search_results, none_filters.
  rewrite lookup_insert_ne, !lookup_insert_eq by done.
  f_equal. rewrite filter_tickets_filter.
  induction tickets as [|t rest IH]; [reflexivity |].
  rewrite filter_cons, decide_True by (split; by left). by rewrite IH.
Qed.

End Decoding.

(** ** Closing twice *)

Section ClosingTwice.
Context {llm : Type}.

(** X22: a ticket that was closed manually cannot be closed again: a second
    attempt with the same number is refused with the state failure and
    leaves the store and the resolution memory as the first closure wrote
    them. *)
Theorem manual_closure_only_once (w : @world llm) (n notes notes' : string)
    (pre : list ticket) (t : ticket) (post : list ticket) :
  strip n ≠ "" → strip notes ≠ "" → strip notes' ≠ "" →
  stored w = (pre ++ t :: post)%list →
  none_matches n pre → same_number (ticket_no t) n = true →
  status t = "need review" →
  let closed := closed_world w n notes pre t post in
  close_ticket_manually n notes w = (Ok tt, closed)
  ∧ close_ticket_manually n notes' closed
    = (Ok tt, with_log closed
                (log closed ++ [Display (Error not_in_review);
                                Display (Error not_found)])%list).
Proof.
  intros Hn Hnotes Hnotes' Hst Hpre Ht Hs closed.
  split; [by apply manual_closure_accepts |].
  apply (manual_closure_wrong_state closed n notes' pre (close_ticket notes t) post);
    try done.
Qed.

End ClosingTwice.

(** * The properties at sample inputs *)

(** C1, counterexample: on the lifecycle example of the specification the
    weights 0.33 give 89 and the weights 1/3 give 90. *)
Lemma reference_confidence_differs :
  compute_confidence "crash" "critical" "auth system" Sample.login_report = 89%Z
  ∧ reference_confidence "crash" "critical" "auth system" Sample.login_report
    = 90%Z.
Proof. split; vm_compute; reflexivity. Qed.

(** C5 at a sample input. *)
Lemma compute_confidence_redundancy_cap_witness :
  "login" ≠ "" ∧ "LOGIN" ≠ "" ∧ lower "login" = lower "LOGIN"
  ∧ (compute_confidence "login" "critical" "LOGIN" Sample.login_report ≤ 70)%Z.
Proof.
  assert ("login" ≠ "") as H1 by discriminate.
  assert ("LOGIN" ≠ "") as H2 by discriminate.
  assert (lower "login" = lower "LOGIN") as H3 by reflexivity.
  split; [exact H1 |]. split; [exact H2 |]. split; [exact H3 |].
  exact (compute_confidence_redundancy_cap
           "login" "critical" "LOGIN" Sample.login_report H1 H2 H3).
Defined.


(** C6 on the sample store. *)
Lemma auto_pass_only_open_idempotent_witness :
  auto_process_open_tickets Sample.chat Sample.json_loads Sample.w0
    = (Ok tt, Sample.w1)
  ∧ length (stored Sample.w1) = length (stored Sample.w0)
  ∧ (∀ i t, stored Sample.w0 !! i = Some t → ¬ is_open t →
            stored Sample.w1 !! i = Some t)
  ∧ memory_file Sample.w1 = memory_file Sample.w0
  ∧ (Ok tt = Ok tt →
     scored (log Sample.w1)
       = (scored (log Sample.w0)
          ++ (description <$> filter is_open (stored Sample.w0)))%list
     ∧ auto_process_open_tickets Sample.chat Sample.json_loads Sample.w1
       = (Ok tt, Sample.w1)).
Proof.
  assert (auto_process_open_tickets Sample.chat Sample.json_loads Sample.w0
          = (Ok tt, Sample.w1)) as H1 by (vm_compute; reflexivity).
  split; [exact H1 |].
  exact (auto_pass_only_open_idempotent Sample.chat Sample.json_loads
           Sample.w0 Sample.w1 (Ok tt) H1).
Defined.

(** C7 (amended) on the closure example of the specification. *)
Lemma manual_closure_need_review_witness :
  strip "TICKET-0002" ≠ "" ∧ strip "restarted service" ≠ ""
  ∧ stored Sample.w0 = ([Sample.t1] ++ Sample.t2 :: [Sample.t3])%list
  ∧ none_matches "TICKET-0002" [Sample.t1]
  ∧ same_number (ticket_no Sample.t2) "TICKET-0002" = true
  ∧ status Sample.t2 = "need review"
  ∧ close_ticket_manually "TICKET-0002" "restarted service" Sample.w0
    = (Ok tt, closed_world Sample.w0 "TICKET-0002" "restarted service"
                [Sample.t1] Sample.t2 [Sample.t3])
  ∧ stored (closed_world Sample.w0 "TICKET-0002" "restarted service"
              [Sample.t1] Sample.t2 [Sample.t3])
    = ([Sample.t1] ++ close_ticket "restarted service" Sample.t2
         :: [Sample.t3])%list
  ∧ status (close_ticket "restarted service" Sample.t2) = "closed"
  ∧ human_resolution (close_ticket "restarted service" Sample.t2)
    = Some "restarted service"
  ∧ ticket_no (close_ticket "restarted service" Sample.t2) = ticket_no Sample.t2
  ∧ description (close_ticket "restarted service" Sample.t2)
    = description Sample.t2
  ∧ ai_analysis (close_ticket "restarted service" Sample.t2)
    = ai_analysis Sample.t2
  ∧ remembered (closed_world Sample.w0 "TICKET-0002" "restarted service"
                  [Sample.t1] Sample.t2 [Sample.t3])
    = (remembered Sample.w0
       ++ [MemoryEntry "TICKET-0002" "restarted service" true])%list.
Proof.
  assert (strip "TICKET-0002" ≠ "") as H1 by (vm_compute; discriminate).
  assert (strip "restarted service" ≠ "") as H2 by (vm_compute; discriminate).
  assert (stored Sample.w0 = ([Sample.t1] ++ Sample.t2 :: [Sample.t3])%list)
    as H3 by reflexivity.
  assert (none_matches "TICKET-0002" [Sample.t1]) as H4
    by (apply Forall_cons; split; [reflexivity | apply Forall_nil_2]).
  assert (same_number (ticket_no Sample.t2) "TICKET-0002" = true) as H5
    by reflexivity.
  assert (status Sample.t2 = "need review") as H6 by reflexivity.
  split; [exact H1 |]. split; [exact H2 |]. split; [exact H3 |].
  split; [exact H4 |]. split; [exact H5 |]. split; [exact H6 |].
  exact (manual_closure_need_review Sample.w0 "TICKET-0002" "restarted service"
           [Sample.t1] Sample.t2 [Sample.t3] H1 H2 H3 H4 H5 H6).
Defined.

(** C7, counterexample: notes made of one space are not empty, the ticket is
    in [need review], and the closure is refused: neither file is written
    and the ticket keeps its status. *)
Lemma manual_closure_blank_notes :
  "TICKET-0002" ≠ "" ∧ " " ≠ ""
  ∧ stored Sample.w0 !! 1%nat = Some Sample.t2
  ∧ ticket_no Sample.t2 = "TICKET-0002"
  ∧ status Sample.t2 = "need review"
  ∧ close_ticket_manually "TICKET-0002" " " Sample.w0
    = (Ok tt, with_log Sample.w0
                [Display (Error "Please enter resolution notes.")])
  ∧ stored (snd (close_ticket_manually "TICKET-0002" " " Sample.w0)) !! 1%nat
    = Some Sample.t2
  ∧ remembered (snd (close_ticket_manually "TICKET-0002" " " Sample.w0)) = [].
Proof. repeat split; try discriminate; vm_compute; reflexivity. Qed.

(** C8 on the open ticket of the sample store. *)
Lemma manual_closure_rejected_witness :
  (none_matches "TICKET-0003" (stored Sample.w0)
   ∨ ∃ pre t post, stored Sample.w0 = (pre ++ t :: post)%list
       ∧ none_matches "TICKET-0003" pre
       ∧ same_number (ticket_no t) "TICKET-0003" = true
       ∧ status t ≠ "need review")
  ∧ ∃ errors : list string,
      close_ticket_manually "TICKET-0003" "rebooted" Sample.w0
        = (Ok tt, with_log Sample.w0
                    (log Sample.w0 ++ (Display ∘ Error <$> errors))%list)
      ∧ errors ≠ []
      ∧ (strip "TICKET-0003" ≠ "" → strip "rebooted" ≠ "" →
         (none_matches "TICKET-0003" (stored Sample.w0) → errors = [not_found])
         ∧ (¬ none_matches "TICKET-0003" (stored Sample.w0) →
            errors = [not_in_review; not_found])).
Proof.
  assert (none_matches "TICKET-0003" (stored Sample.w0)
          ∨ ∃ pre t post, stored Sample.w0 = (pre ++ t :: post)%list
              ∧ none_matches "TICKET-0003" pre
              ∧ same_number (ticket_no t) "TICKET-0003" = true
              ∧ status t ≠ "need review") as H.
  { right. exists [Sample.t1; Sample.t2], Sample.t3, [].
    split; [reflexivity |]. split.
    - apply Forall_cons; split; [reflexivity |].
      apply Forall_cons; split; [reflexivity | apply Forall_nil_2].
    - split; [reflexivity | discriminate]. }
  split; [exact H |].
  exact (manual_closure_rejected Sample.w0 "TICKET-0003" "rebooted" H).
Defined.

(** C10 with the number entered in lower case between spaces, after a
    ticket with another number. *)
Lemma manual_closure_modulo_case_and_padding_witness :
  differ_only_in_case_and_padding (ticket_no Sample.t2) "  ticket-0002 "
  ∧ stored Sample.w0 = ([Sample.t1] ++ Sample.t2 :: [Sample.t3])%list
  ∧ no_variant_among "  ticket-0002 " [Sample.t1]
  ∧ strip "  ticket-0002 " ≠ "" ∧ strip "restarted service" ≠ ""
  ∧ (∀ stored_no entered,
       same_number stored_no entered = true
       ↔ differ_only_in_case_and_padding stored_no entered)
  ∧ close_ticket_manually "  ticket-0002 " "restarted service" Sample.w0
    = (Ok tt, closed_world Sample.w0 "  ticket-0002 " "restarted service"
                [Sample.t1] Sample.t2 [Sample.t3])
  ∧ stored (closed_world Sample.w0 "  ticket-0002 " "restarted service"
              [Sample.t1] Sample.t2 [Sample.t3])
    = ([Sample.t1] ++ close_ticket "restarted service" Sample.t2
         :: [Sample.t3])%list
  ∧ status (close_ticket "restarted service" Sample.t2) = "closed"
  ∧ human_resolution (close_ticket "restarted service" Sample.t2)
    = Some "restarted service"
  ∧ remembered (closed_world Sample.w0 "  ticket-0002 " "restarted service"
                  [Sample.t1] Sample.t2 [Sample.t3])
    = (remembered Sample.w0
       ++ [MemoryEntry "  ticket-0002 " "restarted service" true])%list
  ∧ stored (snd (close_ticket_manually "  ticket-0002 " "restarted service"
                   Sample.w0))
    = stored (snd (close_ticket_manually (ticket_no Sample.t2)
                     "restarted service" Sample.w0)).
Proof.
  assert (differ_only_in_case_and_padding (ticket_no Sample.t2) "  ticket-0002 ")
    as H1.
  { exists "", "TICKET-0002", "", "  ", "ticket-0002", " ".
    repeat split; reflexivity. }
  assert (stored Sample.w0 = ([Sample.t1] ++ Sample.t2 :: [Sample.t3])%list)
    as H2 by reflexivity.
  assert (no_variant_among "  ticket-0002 " [Sample.t1]) as H3.
  { apply Forall_cons; split; [| apply Forall_nil_2].
    intros H. apply same_number_spec in H. discriminate H. }
  assert (strip "  ticket-0002 " ≠ "") as H4 by (vm_compute; discriminate).
  assert (strip "restarted service" ≠ "") as H5 by (vm_compute; discriminate).
  split; [exact H1 |]. split; [exact H2 |]. split; [exact H3 |].
  split; [exact H4 |]. split; [exact H5 |].
  exact (manual_closure_modulo_case_and_padding Sample.w0 "  ticket-0002 "
           "restarted service" [Sample.t1] Sample.t2 [Sample.t3]
           H1 H2 H3 H4 H5).
Defined.

(** * The further properties at sample inputs *)

Lemma numbering_continues_witness :
  ∃ n : Z, (1 ≤ n)%Z ∧ "TICKET-0003" = "TICKET-" ++ format_04d n
    ∧ get_next_ticket_no ([] ++ [Sample.t3])
      = Some ("TICKET-" ++ format_04d (n + 1))
    ∧ "TICKET-" ++ format_04d (n + 1) ≠ "TICKET-0003".
Proof.
  exact (numbering_continues [Sample.t1; Sample.t2] [] Sample.t3 "TICKET-0003"
           eq_refl eq_refl).
Defined.

Lemma get_next_ticket_no_canonical_witness :
  get_next_ticket_no [Sample.t1; Sample.t2; Sample.t3]
    = Some (canonical_number 4)
  ∧ NoDup (canonical_numbers 4).
Proof.
  exact (get_next_ticket_no_canonical [Sample.t1; Sample.t2; Sample.t3] 3
           eq_refl).
Defined.

Lemma get_next_ticket_no_no_hyphen_witness :
  get_next_ticket_no [Ticket "TICKET0001" "Fan is loud" "closed" None None]
  = None.
Proof.
  exact (get_next_ticket_no_no_hyphen
           [Ticket "TICKET0001" "Fan is loud" "closed" None None]
           (Ticket "TICKET0001" "Fan is loud" "closed" None None)
           eq_refl eq_refl).
Defined.

Lemma auto_pass_leaves_none_open_witness :
  Forall (λ t, ¬ is_open t) (stored Sample.w1).
Proof.
  assert (auto_process_open_tickets Sample.chat Sample.json_loads Sample.w0
          = (Ok tt, Sample.w1)) as H by (vm_compute; reflexivity).
  exact (auto_pass_leaves_none_open Sample.chat Sample.json_loads
           Sample.w0 Sample.w1 H).
Defined.

Lemma auto_pass_keeps_identity_witness :
  Forall2 same_identity (stored Sample.w0) (stored Sample.w1).
Proof.
  assert (auto_process_open_tickets Sample.chat Sample.json_loads Sample.w0
          = (Ok tt, Sample.w1)) as H by (vm_compute; reflexivity).
  exact (auto_pass_keeps_identity Sample.chat Sample.json_loads
           Sample.w0 Sample.w1 (Ok tt) H).
Defined.

Lemma auto_pass_failure_writes_nothing_witness :
  tickets_file Example.failed_pass = tickets_file Sample.w0
  ∧ memory_file Example.failed_pass = memory_file Sample.w0
  ∧ any_open (stored Sample.w0) = true.
Proof.
  assert (auto_process_open_tickets Example.down Sample.json_loads Sample.w0
          = (Raised, Example.failed_pass)) as H by (vm_compute; reflexivity).
  exact (auto_pass_failure_writes_nothing Example.down Sample.json_loads
           Sample.w0 Example.failed_pass H).
Defined.

Lemma auto_pass_without_open_ticket_witness :
  auto_process_open_tickets Example.down Sample.json_loads Example.settled
  = (Ok tt, Example.settled).
Proof.
  assert (Forall (λ t, ¬ is_open t) (stored Example.settled)) as H.
  { apply Forall_cons; split; [discriminate |].
    apply Forall_cons; split; [discriminate | apply Forall_nil_2]. }
  exact (auto_pass_without_open_ticket Example.down Sample.json_loads
           Example.settled H).
Defined.

Lemma undecodable_reply_needs_review_witness :
  process_open_ticket Sample.chat Example.no_json Sample.t3 Sample.w0
  = (Ok (set_status "need review" (set_ai_analysis unknown_analysis Sample.t3)),
     World (tickets_file Sample.w0) (memory_file Sample.w0) tt
       (log Sample.w0 ++ [Chat (ExtractionPrompt (description Sample.t3))])%list).
Proof.
  exact (undecodable_reply_needs_review Sample.chat Example.no_json
           Sample.t3 Sample.w0 "Here you go: {...}" tt eq_refl eq_refl).
Defined.

Lemma create_ticket_completed_witness :
  ∃ (new_no : string) (olds : list ticket) (new : ticket),
    get_next_ticket_no (stored Sample.w0) = Some new_no
    ∧ stored Example.created = (olds ++ [new])%list
    ∧ Forall2 same_identity (stored Sample.w0) olds
    ∧ ticket_no new = new_no ∧ description new = "Screen flickers"
    ∧ human_resolution new = None
    ∧ Forall (λ t, ¬ is_open t) (stored Example.created)
    ∧ last (log Example.created)
      = Some (Display (Success ("Ticket " ++ new_no
                                ++ " created and processed!"))).
Proof.
  assert (strip "Screen flickers" ≠ "") as H1 by (vm_compute; discriminate).
  assert (create_ticket Sample.chat Sample.json_loads "Screen flickers" Sample.w0
          = (Ok tt, Example.created)) as H2 by (vm_compute; reflexivity).
  exact (create_ticket_completed Sample.chat Sample.json_loads
           "Screen flickers" Sample.w0 Example.created H1 H2).
Defined.

Lemma create_ticket_raised_witness :
  (get_next_ticket_no (stored Sample.w0) = None ∧ Example.stranded = Sample.w0)
  ∨ (∃ new_no,
       get_next_ticket_no (stored Sample.w0) = Some new_no
       ∧ tickets_file Example.stranded
         = Some (stored Sample.w0
                 ++ [Ticket new_no "Screen flickers" "open" None None])%list
       ∧ memory_file Example.stranded = memory_file Sample.w0).
Proof.
  assert (strip "Screen flickers" ≠ "") as H1 by (vm_compute; discriminate).
  assert (create_ticket Example.down Sample.json_loads "Screen flickers" Sample.w0
          = (Raised, Example.stranded)) as H2 by (vm_compute; reflexivity).
  exact (create_ticket_raised Example.down Sample.json_loads
           "Screen flickers" Sample.w0 Example.stranded H1 H2).
Defined.

Lemma create_ticket_numbers_witness :
  ticket_no <$> stored Example.created = canonical_numbers 4.
Proof.
  assert (ticket_no <$> stored Sample.w0 = canonical_numbers 3) as H0
    by reflexivity.
  assert (strip "Screen flickers" ≠ "") as H1 by (vm_compute; discriminate).
  assert (create_ticket Sample.chat Sample.json_loads "Screen flickers" Sample.w0
          = (Ok tt, Example.created)) as H2 by (vm_compute; reflexivity).
  exact (create_ticket_numbers Sample.chat Sample.json_loads
           "Screen flickers" Sample.w0 Example.created 3 H0 H1 H2).
Defined.

Lemma compute_confidence_monotone_witness :
  (compute_confidence "crash" "critical" "auth system" Sample.login_report
   ≤ compute_confidence "login" "critical" "auth system" Sample.login_report)%Z.
Proof.
  exact (compute_confidence_monotone
           "crash" "critical" "auth system" Sample.login_report
           "login" "critical" "auth system" Sample.login_report
           eq_refl eq_refl eq_refl eq_refl).
Defined.

Lemma selected_ticket_of_label_witness :
  selected_ticket ([Sample.t1] ++ Sample.t3 :: []) (result_label Sample.t3)
  = Some Sample.t3.
Proof.
  assert (Forall (λ u, ticket_no u ≠ ticket_no Sample.t3) [Sample.t1]) as H
    by (apply Forall_cons; split; [discriminate | apply Forall_nil_2]).
  exact (selected_ticket_of_label [Sample.t1] Sample.t3 [] eq_refl H).
Defined.

Lemma selected_ticket_colon_witness :
  selected_ticket [Sample.t1; Example.odd] (result_label Example.odd) = None.
Proof.
  assert (Forall (λ u, ticket_no u ≠ "A") [Sample.t1; Example.odd]) as H.
  { apply Forall_cons; split; [discriminate |].
    apply Forall_cons; split; [discriminate | apply Forall_nil_2]. }
  exact (selected_ticket_colon [Sample.t1; Example.odd] Example.odd "A" "1"
           eq_refl eq_refl H).
Defined.


Lemma no_closing_brace_witness :
  parse_extraction Sample.json_loads "{ no end"
  = parse_extraction Sample.json_loads ""
  ∧ parse_search_reply Sample.json_loads "{ no end"
    = parse_search_reply Sample.json_loads "".
Proof. exact (no_closing_brace Sample.json_loads "{ no end" eq_refl). Defined.

Lemma undecodable_filters_return_all_witness :
  search_results (parse_search_reply Example.no_json "I cannot tell")
    (stored Sample.w0)
  = Some (stored Sample.w0).
Proof.
  exact (undecodable_filters_return_all Example.no_json "I cannot tell"
           (stored Sample.w0) eq_refl).
Defined.

Lemma manual_closure_only_once_witness :
  close_ticket_manually "TICKET-0002" "restarted service" Sample.w0
  = (Ok tt, closed_world Sample.w0 "TICKET-0002" "restarted service"
              [Sample.t1] Sample.t2 [Sample.t3])
  ∧ close_ticket_manually "TICKET-0002" "again"
      (closed_world Sample.w0 "TICKET-0002" "restarted service"
         [Sample.t1] Sample.t2 [Sample.t3])
    = (Ok tt,
       with_log
         (closed_world Sample.w0 "TICKET-0002" "restarted service"
            [Sample.t1] Sample.t2 [Sample.t3])
         (log (closed_world Sample.w0 "TICKET-0002" "restarted service"
                 [Sample.t1] Sample.t2 [Sample.t3])
          ++ [Display (Error not_in_review); Display (Error not_found)])%list).
Proof.
  assert (strip "TICKET-0002" ≠ "") as H1 by (vm_compute; discriminate).
  assert (strip "restarted service" ≠ "") as H2 by (vm_compute; discriminate).
  assert (strip "again" ≠ "") as H3 by (vm_compute; discriminate).
  assert (none_matches "TICKET-0002" [Sample.t1]) as H4
    by (apply Forall_cons; split; [reflexivity | apply Forall_nil_2]).
  exact (manual_closure_only_once Sample.w0 "TICKET-0002" "restarted service"
           "again" [Sample.t1] Sample.t2 [Sample.t3]
           H1 H2 H3 eq_refl H4 eq_refl eq_refl).
Defined.
